(** * solidity-docgen: the field accessors of a documentation item

    A shallow embedding of [src/accessors.ts] (the accessor registry,
    [getParams] and [wrapWithAccessors]) and of the Handlebars helpers [h],
    [trim] and [joinLines], followed by the properties the documentation
    of the package states about them and by further properties of the
    code. *)

From Stdlib Require Import ZArith Ascii String List Bool Lia.
From stdpp Require Import base option gmap strings list fin_maps.

Local Open Scope string_scope.
Local Open Scope list_scope.

(** ** JavaScript string primitives *)

Module JS.

(** [s.startsWith(p)] *)
Definition startsWith (s p : string) : bool := String.prefix p s.

(** [s.endsWith(p)]: the last [p.length] characters of [s] are [p]. *)
Definition endsWith (s p : string) : bool :=
  (String.length p <=? String.length s)%nat
  && String.eqb
       (String.substring (String.length s - String.length p) (String.length p) s)
       p.

(** Truthiness of a [string | undefined]: [undefined] and the empty
    string are falsy. *)
Definition truthy (v : option string) : bool :=
  match v with
  | Some s => negb (String.eqb s "")
  | None => false
  end.

(** [v == lit] for a [string | undefined] against a string literal. *)
Definition looseEq (v : option string) (lit : string) : bool :=
  match v with
  | Some s => String.eqb s lit
  | None => false
  end.

(** [Array.prototype.join]: [undefined] elements print as the empty
    string. *)
Definition join (sep : string) (xs : list (option string)) : string :=
  String.concat sep (map (fun x => default "" x) xs).

(** [\w] of a regular expression. *)
Definition isWordChar (c : ascii) : bool :=
  let n := nat_of_ascii c in
  ((65 <=? n) && (n <=? 90) || (97 <=? n) && (n <=? 122)
   || (48 <=? n) && (n <=? 57) || (n =? 95))%nat.

(** [[A-Z]] of a regular expression. *)
Definition isUpper (c : ascii) : bool :=
  let n := nat_of_ascii c in ((65 <=? n) && (n <=? 90))%nat.

(** [s.replace(/(\w)([A-Z])/g, '$1 $2')]: matches are found left to
    right and do not overlap. *)
Fixpoint spaceBeforeCapitals (s : string) : string :=
  match s with
  | String c1 (String c2 rest as tl) =>
      if isWordChar c1 && isUpper c2
      then String c1 (String " " (String c2 (spaceBeforeCapitals rest)))
      else String c1 (spaceBeforeCapitals tl)
  | _ => s
  end.

(** [s.replace(/(Definition|Declaration)$/, '')] *)
Definition stripDefinitionSuffix (s : string) : string :=
  if endsWith s "Definition"
  then String.substring 0 (String.length s - 10) s
  else if endsWith s "Declaration"
  then String.substring 0 (String.length s - 11) s
  else s.

(** [new Array(n).fill(c).join('')]: the array constructor throws a
    [RangeError] unless [n] is an array length; [None] stands for the
    exception. *)
Definition filledArrayJoin (n : Z) (c : string) : option string :=
  if ((0 <=? n) && (n <? 2 ^ 32))%Z
  then Some (String.concat "" (repeat c (Z.to_nat n)))
  else None.

End JS.

(** ** The syntax tree (the part of [solidity-ast] the accessors read) *)

Record TypeDescriptions := mkTypeDescriptions {
  typeString : option string
}.

Record TypeName := mkTypeName {
  tn_nodeType : string;
  tn_name : string;
  tn_typeDescriptions : TypeDescriptions
}.

Record VariableDeclaration := mkVariableDeclaration {
  var_name : string;
  var_typeName : option TypeName;
  var_typeDescriptions : TypeDescriptions;
  var_stateVariable : bool;
  var_visibility : option string;
  var_mutability : option string
}.

Record ParameterList := mkParameterList {
  parameters : list VariableDeclaration
}.

(** [modifierName] stands for [modifierName.name]. *)
Record ModifierInvocation := mkModifierInvocation {
  modifierName : string
}.

Record FunctionDefinition := mkFunctionDefinition {
  fn_name : string;
  fn_kind : string;
  fn_visibility : option string;
  fn_stateMutability : option string;
  fn_virtual : bool;
  fn_modifiers : option (list ModifierInvocation);
  fn_parameters : ParameterList;
  fn_returnParameters : ParameterList
}.

Record EventDefinition := mkEventDefinition {
  ev_name : string;
  ev_parameters : ParameterList
}.

Record ErrorDefinition := mkErrorDefinition {
  err_name : string;
  err_parameters : ParameterList
}.

Record ModifierDefinition := mkModifierDefinition {
  mod_name : string;
  mod_parameters : ParameterList
}.

(** The documentation items that have no accessor branch of their own. *)
Inductive OtherKind :=
| StructDefinition
| EnumDefinition
| UserDefinedValueTypeDefinition.

(** A documentation item. A contract has member nodes; the other items
    hold their parameters, which are variable declarations, in parameter
    lists. Function bodies are left out: no accessor reads them. *)
#[warnings="-register-all"]
Inductive Node :=
| NContract (name : string) (nodes : list Node)
| NFunction (f : FunctionDefinition)
| NEvent (e : EventDefinition)
| NError (e : ErrorDefinition)
| NModifier (m : ModifierDefinition)
| NVariable (v : VariableDeclaration)
| NOther (k : OtherKind) (name : string).

Definition otherKindName (k : OtherKind) : string :=
  match k with
  | StructDefinition => "StructDefinition"
  | EnumDefinition => "EnumDefinition"
  | UserDefinedValueTypeDefinition => "UserDefinedValueTypeDefinition"
  end.

(** [item.nodeType] *)
Definition nodeType (item : Node) : string :=
  match item with
  | NContract _ _ => "ContractDefinition"
  | NFunction _ => "FunctionDefinition"
  | NEvent _ => "EventDefinition"
  | NError _ => "ErrorDefinition"
  | NModifier _ => "ModifierDefinition"
  | NVariable _ => "VariableDeclaration"
  | NOther k _ => otherKindName k
  end.

(** [item.name] *)
Definition declaredName (item : Node) : string :=
  match item with
  | NContract n _ => n
  | NFunction f => fn_name f
  | NEvent e => ev_name e
  | NError e => err_name e
  | NModifier m => mod_name m
  | NVariable v => var_name v
  | NOther _ n => n
  end.

(** [x.visibility]: reading a property an object does not have gives
    [undefined]. *)
Definition getVisibility (x : Node) : option string :=
  match x with
  | NFunction f => fn_visibility f
  | NVariable v => var_visibility v
  | _ => None
  end.

(** [v.stateVariable], [undefined] being falsy. *)
Definition getStateVariable (v : Node) : bool :=
  match v with
  | NVariable d => var_stateVariable d
  | _ => false
  end.

(** [item.nodes] of a contract. *)
Definition memberNodes (item : Node) : list Node :=
  match item with
  | NContract _ nodes => nodes
  | _ => []
  end.

(** ** The helpers of [solidity-ast/utils] *)

(** [isNodeType(nodeType)(node)] *)
Definition isNodeType (nt : string) (node : Node) : bool :=
  String.eqb (nodeType node) nt.

(** The variable declarations of the parameter lists of an item, as
    nodes, in the order of the properties that hold them. *)
Definition parameterNodes (node : Node) : list Node :=
  match node with
  | NFunction f =>
      map NVariable (parameters (fn_parameters f))
      ++ map NVariable (parameters (fn_returnParameters f))
  | NEvent e => map NVariable (parameters (ev_parameters e))
  | NError e => map NVariable (parameters (err_parameters e))
  | NModifier m => map NVariable (parameters (mod_parameters m))
  | _ => []
  end.

(** Modelled from the spec: [findAll] of [solidity-ast/utils], the
    descendant collector: a recursive search over the subtree of [node],
    [node] included, that yields every node of the requested kind in
    source order. *)
Fixpoint findAll (nt : string) (node : Node) : list Node :=
  (if isNodeType nt node then [node] else [])
  ++ List.filter (isNodeType nt) (parameterNodes node)
  ++ match node with
     | NContract _ nodes => flat_map (findAll nt) nodes
     | _ => []
     end.

(** [m] lies in the subtree rooted at [n]. *)
Inductive InSubtree (m : Node) : Node -> Prop :=
| InSubtree_self : InSubtree m m
| InSubtree_parameter n :
    In m (parameterNodes n) -> InSubtree m n
| InSubtree_member name nodes child :
    In child nodes -> InSubtree m child -> InSubtree m (NContract name nodes).

(** ** NatSpec *)

Record NatSpecParam := mkNatSpecParam {
  np_name : string;
  np_description : string
}.

(** Modelled from the spec: the [NatSpec] record of [utils/natspec]; the
    fields are optional, [params] is the list of [@param] tags in the
    order they were written. *)
Record NatSpec := mkNatSpec {
  ns_notice : option string;
  ns_dev : option string;
  ns_params : option (list NatSpecParam)
}.

(** ** [getParams] *)

Record Param := mkParam {
  p_name : string;
  p_type : option string;
  p_natspec : option string
}.

(** [natspec.params?.find(q => name === q.name)?.description] *)
Definition findDescription (natspec : NatSpec) (name : string) : option string :=
  match ns_params natspec with
  | Some qs =>
      match List.find (fun q => String.eqb name (np_name q)) qs with
      | Some q => Some (np_description q)
      | None => None
      end
  | None => None
  end.

Definition getParams (params : ParameterList) (natspec : NatSpec) : list Param :=
  map (fun p => {| p_name := var_name p;
                   p_type := typeString (var_typeDescriptions p);
                   p_natspec := findDescription natspec (var_name p) |})
      (parameters params).

(** ** The accessor registry *)

(** [a.typeName?.typeDescriptions.typeString] *)
Definition paramTypeString (a : VariableDeclaration) : option string :=
  match var_typeName a with
  | Some tn => typeString (tn_typeDescriptions tn)
  | None => None
  end.

(** A template literal [`${name}(${types.join(',')})`]. *)
Definition signatureText (name : string) (ps : ParameterList) : string :=
  name +:+ "(" +:+ JS.join "," (map paramTypeString (parameters ps)) +:+ ")".

Definition isPublic (x : Node) : bool :=
  JS.looseEq (getVisibility x) "public".

Definition isPublicOrExternal (x : Node) : bool :=
  JS.looseEq (getVisibility x) "public" || JS.looseEq (getVisibility x) "external".

Section Accessors.

(** [parseNatspec] of [utils/natspec] reads the documentation comment of
    the item from its source file; the accessors only pass its result on. *)
Variable parseNatspec : Node -> NatSpec.

Definition type (item : Node) : string :=
  JS.spaceBeforeCapitals (JS.stripDefinitionSuffix (nodeType item)).

Definition natspec (item : Node) : NatSpec := parseNatspec item.

Definition name (item : Node) : string :=
  match item with
  | NFunction f =>
      if String.eqb (fn_kind f) "function" then fn_name f else fn_kind f
  | _ => declaredName item
  end.

Definition visibility (item : Node) : option string :=
  match item with
  | NFunction _ | NVariable _ =>
      if JS.truthy (getVisibility item) then getVisibility item else None
  | _ => None
  end.

Definition typeName (item : Node) : option string :=
  match item with
  | NVariable v =>
      match var_typeName v with
      | Some tn =>
          if String.eqb (tn_nodeType tn) "ElementaryTypeName"
          then Some (tn_name tn)
          else if JS.truthy (typeString (tn_typeDescriptions tn))
               then typeString (tn_typeDescriptions tn)
               else None
      | None => None
      end
  | _ => None
  end.

Definition stateMutability (item : Node) : option string :=
  match item with
  | NFunction f =>
      if JS.looseEq (fn_stateMutability f) "nonpayable" then None
      else if JS.truthy (fn_stateMutability f) then fn_stateMutability f
           else None
  | NVariable v =>
      if JS.looseEq (var_mutability v) "mutable" then None
      else if JS.truthy (var_mutability v) then var_mutability v
           else None
  | _ => None
  end.

Definition virtual (item : Node) : option string :=
  match item with
  | NFunction f => if fn_virtual f then Some "virtual" else None
  | _ => None
  end.

Definition withModifiers (item : Node) : option string :=
  match item with
  | NFunction f =>
      match fn_modifiers f with
      | Some ms => Some (String.concat ", " (map modifierName ms))
      | None => None
      end
  | _ => None
  end.

Definition signature (item : Node) : option string :=
  match item with
  | NContract _ _ => None
  | NFunction f => Some (signatureText (name item) (fn_parameters f))
  | NEvent e => Some (signatureText (name item) (ev_parameters e))
  | _ => None
  end.

Definition params (item : Node) : option (list Param) :=
  match item with
  | NFunction f => Some (getParams (fn_parameters f) (natspec item))
  | NEvent e => Some (getParams (ev_parameters e) (natspec item))
  | _ => None
  end.

Definition returns (item : Node) : option (list Param) :=
  match item with
  | NFunction f => Some (getParams (fn_returnParameters f) (natspec item))
  | _ => None
  end.

Definition functions (item : Node) : list Node :=
  findAll "FunctionDefinition" item.

Definition events (item : Node) : list Node :=
  findAll "EventDefinition" item.

Definition modifiers (item : Node) : list Node :=
  findAll "ModifierDefinition" item.

Definition errors (item : Node) : list Node :=
  findAll "ErrorDefinition" item.

Definition variables (item : Node) : option (list Node) :=
  match item with
  | NContract _ nodes =>
      Some (List.filter getStateVariable
              (List.filter (isNodeType "VariableDeclaration") nodes))
  | _ => None
  end.

Definition notTest (item : Node) : bool :=
  match item with
  | NContract name _ =>
      negb (JS.endsWith name "Test"
            || JS.startsWith name "Test"
            || JS.endsWith name "Mock"
            || JS.startsWith name "Mock")
  | _ => true
  end.

Definition hasPublicMembers (item : Node) : bool :=
  match item with
  | NContract _ nodes =>
      let variables :=
        List.filter isPublic
          (List.filter getStateVariable
             (List.filter (isNodeType "VariableDeclaration") nodes)) in
      if (0 <? length variables)%nat then true else
      let events := findAll "EventDefinition" item in
      if (0 <? length events)%nat then true else
      let functions :=
        List.filter isPublicOrExternal (findAll "FunctionDefinition" item) in
      if (0 <? length functions)%nat then true else
      false
  | _ => false
  end.

Definition publicExternalFunctions (item : Node) : list Node :=
  List.filter isPublicOrExternal (findAll "FunctionDefinition" item).

Definition publicVariables (item : Node) : option (list Node) :=
  match item with
  | NContract _ nodes =>
      Some (List.filter isPublic
              (List.filter getStateVariable
                 (List.filter (isNodeType "VariableDeclaration") nodes)))
  | _ => None
  end.

End Accessors.

(** ** Objects and [wrapWithAccessors] *)

(** The values a property of an item or of a wrapped item holds. *)
Inductive value :=
| VUndefined
| VBool (b : bool)
| VString (s : string)
| VNatSpec (n : NatSpec)
| VParams (ps : list Param)
| VNodes (ns : list Node)
| VTypeName (t : TypeName)
| VTypeDescriptions (t : TypeDescriptions)
| VParameterList (ps : ParameterList)
| VModifierInvocations (ms : list ModifierInvocation).

Definition ofString (o : option string) : value :=
  match o with Some s => VString s | None => VUndefined end.

Definition ofParams (o : option (list Param)) : value :=
  match o with Some ps => VParams ps | None => VUndefined end.

Definition ofNodes (o : option (list Node)) : value :=
  match o with Some ns => VNodes ns | None => VUndefined end.

(** A property that is set only when the field is. *)
Definition optionalProperty {A} (key : string) (inj : A -> value) (o : option A)
  : list (string * value) :=
  match o with Some a => [(key, inj a)] | None => [] end.

(** The own properties of an item, as the spread [...item] copies them. *)
Definition ownProperties (item : Node) : gmap string value :=
  list_to_map
    (("nodeType", VString (nodeType item))
     :: ("name", VString (declaredName item))
     :: match item with
        | NContract _ nodes => [("nodes", VNodes nodes)]
        | NFunction f =>
            [("kind", VString (fn_kind f));
             ("virtual", VBool (fn_virtual f));
             ("parameters", VParameterList (fn_parameters f));
             ("returnParameters", VParameterList (fn_returnParameters f))]
            ++ optionalProperty "visibility" VString (fn_visibility f)
            ++ optionalProperty "stateMutability" VString (fn_stateMutability f)
            ++ optionalProperty "modifiers" VModifierInvocations (fn_modifiers f)
        | NEvent e => [("parameters", VParameterList (ev_parameters e))]
        | NError e => [("parameters", VParameterList (err_parameters e))]
        | NModifier m => [("parameters", VParameterList (mod_parameters m))]
        | NVariable v =>
            [("typeDescriptions", VTypeDescriptions (var_typeDescriptions v));
             ("stateVariable", VBool (var_stateVariable v))]
            ++ optionalProperty "typeName" VTypeName (var_typeName v)
            ++ optionalProperty "visibility" VString (var_visibility v)
            ++ optionalProperty "mutability" VString (var_mutability v)
        | NOther _ _ => []
        end).

(** Modelled from the spec: [mapValues] of [utils/map-values], which
    calls [fn] on the value of every key of [obj] and keeps the keys. *)
Definition mapValues {A B} (obj : gmap string A) (fn : A -> B) : gmap string B :=
  fn <$> obj.

Section Registry.

Variable parseNatspec : Node -> NatSpec.

(** The object literal [accessors], key by key. *)
Definition accessorTable : list (string * (Node -> value)) :=
  [ ("type", fun item => VString (type item));
    ("natspec", fun item => VNatSpec (natspec parseNatspec item));
    ("name", fun item => VString (name item));
    ("visibility", fun item => ofString (visibility item));
    ("typeName", fun item => ofString (typeName item));
    ("stateMutability", fun item => ofString (stateMutability item));
    ("virtual", fun item => ofString (virtual item));
    ("withModifiers", fun item => ofString (withModifiers item));
    ("signature", fun item => ofString (signature item));
    ("params", fun item => ofParams (params parseNatspec item));
    ("returns", fun item => ofParams (returns parseNatspec item));
    ("functions", fun item => VNodes (functions item));
    ("events", fun item => VNodes (events item));
    ("modifiers", fun item => VNodes (modifiers item));
    ("errors", fun item => VNodes (errors item));
    ("variables", fun item => ofNodes (variables item));
    ("notTest", fun item => VBool (notTest item));
    ("hasPublicMembers", fun item => VBool (hasPublicMembers item));
    ("publicExternalFunctions", fun item => VNodes (publicExternalFunctions item));
    ("publicVariables", fun item => ofNodes (publicVariables item)) ].

Definition accessors : gmap string (Node -> value) :=
  list_to_map accessorTable.

(** [{ ...item, ...mapValues(accessors, fn => fn(item)) }]: of two
    spreads the later one wins on a key both have. *)
Definition wrapWithAccessors (item : Node) : gmap string value :=
  mapValues accessors (fun fn => fn item) ∪ ownProperties item.

End Registry.

(** ** The Handlebars helper [h] *)

(** The argument of a helper: a number, or the options object Handlebars
    passes when the template gives none. Numbers are the integers. *)
Inductive HelperArg :=
| ArgNumber (x : Z)
| ArgObject.

(** [hlevel] is [this.hlevel]. *)
Definition h (hlevel : option Z) (hsublevel : HelperArg) : option string :=
  let hsublevel :=
    match hsublevel with
    | ArgNumber x => Z.max 1 x
    | ArgObject => 1%Z
    end in
  JS.filledArrayJoin (default 1%Z hlevel + hsublevel - 1)%Z "#".

(** ** The Handlebars helpers [trim] and [joinLines] *)

(** A string is held as the bytes of its UTF-8 encoding. *)
Definition utf8 (bytes : list nat) : string :=
  fold_right (fun b s => String (ascii_of_nat b) s) "" bytes.

(** The white space and line terminators [String.prototype.trim]
    removes: U+0009 to U+000D, U+0020, U+00A0, U+1680, U+2000 to U+200A,
    U+2028, U+2029, U+202F, U+205F, U+3000 and U+FEFF. *)
Definition whiteSpace : list string :=
  map utf8
    [ [9]; [10]; [11]; [12]; [13]; [32]; [194; 160]; [225; 154; 128];
      [226; 128; 128]; [226; 128; 129]; [226; 128; 130]; [226; 128; 131];
      [226; 128; 132]; [226; 128; 133]; [226; 128; 134]; [226; 128; 135];
      [226; 128; 136]; [226; 128; 137]; [226; 128; 138];
      [226; 128; 168]; [226; 128; 169]; [226; 128; 175];
      [226; 129; 159]; [227; 128; 128]; [239; 187; 191] ].

(** The rest of [s] after the prefix [w], when [s] starts with [w]. *)
Definition stripPrefix (w s : string) : option string :=
  if JS.startsWith s w
  then Some (String.substring (String.length w) (String.length s - String.length w) s)
  else None.

(** The rest of [s] before the suffix [w], when [s] ends with [w]. *)
Definition stripSuffix (w s : string) : option string :=
  if JS.endsWith s w
  then Some (String.substring 0 (String.length s - String.length w) s)
  else None.

(** One white space character less, at the side [strip] works on. *)
Fixpoint stripOne (strip : string -> string -> option string)
    (ws : list string) (s : string) : option string :=
  match ws with
  | [] => None
  | w :: ws' =>
      match strip w s with
      | Some rest => Some rest
      | None => stripOne strip ws' s
      end
  end.

(** White space is taken off for as long as there is some; [fuel] bounds
    the number of characters taken off. *)
Fixpoint stripAll (strip1 : string -> option string) (fuel : nat) (s : string)
  : string :=
  match fuel with
  | O => s
  | S fuel' =>
      match strip1 s with
      | Some rest => stripAll strip1 fuel' rest
      | None => s
      end
  end.

Definition trimStart (s : string) : string :=
  stripAll (stripOne stripPrefix whiteSpace) (String.length s) s.

Definition trimEnd (s : string) : string :=
  stripAll (stripOne stripSuffix whiteSpace) (String.length s) s.

(** [text.trim()] *)
Definition stringTrim (s : string) : string := trimEnd (trimStart s).

(** [trim]: [None] stands for an argument that is not a string, and for
    the [undefined] the helper returns then. *)
Definition trim (text : option string) : option string :=
  match text with
  | Some s => Some (stringTrim s)
  | None => None
  end.

Definition newline : ascii := ascii_of_nat 10.

(** [text.replace(/\n+/g, ' ')]: [inRun] tells that the character before
    was a newline, already replaced. *)
Fixpoint replaceNewlineRuns (inRun : bool) (s : string) : string :=
  match s with
  | EmptyString => EmptyString
  | String c rest =>
      if Ascii.eqb c newline
      then if inRun then replaceNewlineRuns true rest
           else String " " (replaceNewlineRuns true rest)
      else String c (replaceNewlineRuns false rest)
  end.

(** [joinLines]: [None] as for [trim]. *)
Definition joinLines (text : option string) : option string :=
  match text with
  | Some s => Some (replaceNewlineRuns false s)
  | None => None
  end.

(** ** The registry when [parseNatspec] throws *)

(** What a call gives: a value, or an exception. *)
Inductive Outcome :=
| Returned (v : value)
| Thrown.

(** The accessors once more, with a [parseNatspec] that may throw
    ([None]). Only [natspec], [params] and [returns] call it; at the
    declared types no other accessor holds an operation that can throw. *)
Module Throwing.

Section Parser.

Variable parseNatspec : Node -> option NatSpec.

Definition natspec (item : Node) : Outcome :=
  match parseNatspec item with
  | Some n => Returned (VNatSpec n)
  | None => Thrown
  end.

Definition params (item : Node) : Outcome :=
  match item with
  | NFunction f =>
      match parseNatspec item with
      | Some n => Returned (VParams (getParams (fn_parameters f) n))
      | None => Thrown
      end
  | NEvent e =>
      match parseNatspec item with
      | Some n => Returned (VParams (getParams (ev_parameters e) n))
      | None => Thrown
      end
  | _ => Returned VUndefined
  end.

Definition returns (item : Node) : Outcome :=
  match item with
  | NFunction f =>
      match parseNatspec item with
      | Some n => Returned (VParams (getParams (fn_returnParameters f) n))
      | None => Thrown
      end
  | _ => Returned VUndefined
  end.

Definition accessorTable : list (string * (Node -> Outcome)) :=
  [ ("type", fun item => Returned (VString (type item)));
    ("natspec", natspec);
    ("name", fun item => Returned (VString (name item)));
    ("visibility", fun item => Returned (ofString (visibility item)));
    ("typeName", fun item => Returned (ofString (typeName item)));
    ("stateMutability", fun item => Returned (ofString (stateMutability item)));
    ("virtual", fun item => Returned (ofString (virtual item)));
    ("withModifiers", fun item => Returned (ofString (withModifiers item)));
    ("signature", fun item => Returned (ofString (signature item)));
    ("params", params);
    ("returns", returns);
    ("functions", fun item => Returned (VNodes (functions item)));
    ("events", fun item => Returned (VNodes (events item)));
    ("modifiers", fun item => Returned (VNodes (modifiers item)));
    ("errors", fun item => Returned (VNodes (errors item)));
    ("variables", fun item => Returned (ofNodes (variables item)));
    ("notTest", fun item => Returned (VBool (notTest item)));
    ("hasPublicMembers", fun item => Returned (VBool (hasPublicMembers item)));
    ("publicExternalFunctions",
     fun item => Returned (VNodes (publicExternalFunctions item)));
    ("publicVariables", fun item => Returned (ofNodes (publicVariables item))) ].

Definition accessors : gmap string (Node -> Outcome) :=
  list_to_map accessorTable.

End Parser.

End Throwing.

(** * Notions the properties are stated with *)

(** The keys of the object literal [accessors]. *)
Definition registryKeys : list string :=
  [ "type"; "natspec"; "name"; "visibility"; "typeName"; "stateMutability";
    "virtual"; "withModifiers"; "signature"; "params"; "returns"; "functions";
    "events"; "modifiers"; "errors"; "variables"; "notTest"; "hasPublicMembers";
    "publicExternalFunctions"; "publicVariables" ].

(** The accessors whose result may be [undefined], each with the node
    types it has a branch for. *)
Definition optionalAccessors : list (string * list string) :=
  [ ("visibility", ["FunctionDefinition"; "VariableDeclaration"]);
    ("typeName", ["VariableDeclaration"]);
    ("stateMutability", ["FunctionDefinition"; "VariableDeclaration"]);
    ("virtual", ["FunctionDefinition"]);
    ("withModifiers", ["FunctionDefinition"]);
    ("signature", ["FunctionDefinition"; "EventDefinition"]);
    ("params", ["FunctionDefinition"; "EventDefinition"]);
    ("returns", ["FunctionDefinition"]);
    ("variables", ["ContractDefinition"]);
    ("publicVariables", ["ContractDefinition"]) ].

(** A member of a contract as the compiler produces it: it has no
    members of its own (contracts do not nest) and none of its parameters
    is flagged as a state variable. *)
Definition plainMember (n : Node) : Prop :=
  memberNodes n = []
  /\ Forall (fun p => getStateVariable p = false) (parameterNodes n).

(** What the documentation says of the [natspec] field of the entry for a
    parameter called [name]: the description of the first [@param] tag
    whose name is [name], or nothing when no tag has that name. *)
Inductive MatchingDescription (natspec : NatSpec) (name : string)
  : option string -> Prop :=
| Description_found tags before tag after :
    ns_params natspec = Some tags ->
    tags = before ++ tag :: after ->
    np_name tag = name ->
    Forall (fun earlier => np_name earlier <> name) before ->
    MatchingDescription natspec name (Some (np_description tag))
| Description_absent :
    (forall tags tag, ns_params natspec = Some tags -> In tag tags ->
                      np_name tag <> name) ->
    MatchingDescription natspec name None.

(** A string made of white space only. *)
Inductive WhiteOnly : string -> Prop :=
| WhiteOnly_empty : WhiteOnly ""
| WhiteOnly_more w s : In w whiteSpace -> WhiteOnly s -> WhiteOnly (w +:+ s).

(** [s] neither starts nor ends with white space. *)
Definition Trimmed (s : string) : Prop :=
  (forall w rest, In w whiteSpace -> s <> w +:+ rest)
  /\ (forall w rest, In w whiteSpace -> s <> rest +:+ w).

(** The characters of a string. *)
Definition chars (s : string) : list ascii := list_ascii_of_string s.

(** A run of [n] newlines. *)
Definition newlineRun (n : nat) : string := utf8 (repeat 10%nat n).

(** A string without its spaces. *)
Fixpoint removeSpaces (s : string) : string :=
  match s with
  | EmptyString => EmptyString
  | String c rest =>
      if Ascii.eqb c " " then removeSpaces rest else String c (removeSpaces rest)
  end.

(** The own properties of an item that have the name of an accessor. *)
Definition overriddenKeys : list string :=
  [ "name"; "visibility"; "typeName"; "stateMutability"; "virtual"; "modifiers" ].

(** * Sample items *)

Definition noNatspec : NatSpec := mkNatSpec None None None.

Definition elementary (name : string) : TypeName :=
  mkTypeName "ElementaryTypeName" name (mkTypeDescriptions (Some name)).

Definition parameter (name type : string) : VariableDeclaration :=
  mkVariableDeclaration name (Some (elementary type))
    (mkTypeDescriptions (Some type)) false (Some "internal") (Some "mutable").

Definition transferFn : FunctionDefinition :=
  mkFunctionDefinition "transfer" "function" (Some "external") (Some "nonpayable")
    false (Some [])
    (mkParameterList [parameter "to" "address"; parameter "amount" "uint256"])
    (mkParameterList [parameter "" "bool"]).

(** A function declared at file level: its kind is [freeFunction]. *)
Definition addFn : FunctionDefinition :=
  mkFunctionDefinition "add" "freeFunction" (Some "internal") (Some "pure")
    false (Some [])
    (mkParameterList [parameter "a" "uint256"; parameter "b" "uint256"])
    (mkParameterList [parameter "" "uint256"]).

(** A function whose parameter and return parameter are both called
    [amount]. *)
Definition echoFn : FunctionDefinition :=
  mkFunctionDefinition "echo" "function" (Some "public") (Some "pure")
    false (Some [])
    (mkParameterList [parameter "amount" "uint256"])
    (mkParameterList [parameter "amount" "uint128"]).

(** A function whose two parameters have no type annotation. *)
Definition untypedFn : FunctionDefinition :=
  mkFunctionDefinition "call" "function" (Some "public") (Some "nonpayable")
    false (Some [])
    (mkParameterList
       [mkVariableDeclaration "a" None (mkTypeDescriptions None) false None None;
        mkVariableDeclaration "b" None (mkTypeDescriptions None) false None None])
    (mkParameterList []).

(** A function whose second parameter has no type annotation. *)
Definition mixedFn : FunctionDefinition :=
  mkFunctionDefinition "pay" "function" (Some "public") (Some "payable")
    false (Some [])
    (mkParameterList
       [parameter "amount" "uint256";
        mkVariableDeclaration "memo" None (mkTypeDescriptions None) false None None])
    (mkParameterList []).

(** * Properties *)

(** ** Strings *)

Lemma prefix_iff_append (p s : string) :
  String.prefix p s = true <-> exists t, s = p +:+ t.
Proof.
  revert s. induction p as [|a p IH]; intros s; simpl.
  - destruct s; simpl; split; eauto.
  - destruct s as [|b s]; simpl.
    + split; [discriminate | intros [t Ht]; discriminate].
    + destruct (Ascii.ascii_dec a b) as [->|Hne].
      * rewrite IH. split; intros [t Ht]; exists t.
        -- subst s. reflexivity.
        -- cbn in Ht. injection Ht as Ht. exact Ht.
      * split; [discriminate | intros [t Ht]; cbn in Ht; injection Ht as Hab _; congruence].
Qed.

Lemma startsWith_iff (s p : string) :
  JS.startsWith s p = true <-> exists t, s = p +:+ t.
Proof. apply prefix_iff_append. Qed.

Lemma append_cons (a : ascii) (s t : string) :
  String a s +:+ t = String a (s +:+ t).
Proof. reflexivity. Qed.

Lemma length_append (s t : string) :
  String.length (s +:+ t) = (String.length s + String.length t)%nat.
Proof.
  induction s as [|a s IH]; [reflexivity|].
  rewrite append_cons. simpl. congruence.
Qed.

Lemma substring_all (s : string) : String.substring 0 (String.length s) s = s.
Proof. induction s; simpl; congruence. Qed.

Lemma substring_skip (t p : string) (n : nat) :
  String.substring (String.length t) n (t +:+ p) = String.substring 0 n p.
Proof.
  induction t as [|a t IH]; [reflexivity|].
  rewrite append_cons. simpl. exact IH.
Qed.

Lemma substring_split (s : string) (k : nat) :
  (k <= String.length s)%nat ->
  s = String.substring 0 k s +:+ String.substring k (String.length s - k) s.
Proof.
  revert k. induction s as [|a s IH]; intros k Hk; simpl in *.
  - destruct k; reflexivity.
  - destruct k as [|k]; simpl.
    + change ("" +:+ String a (String.substring 0 (String.length s) s))
        with (String a (String.substring 0 (String.length s) s)).
      f_equal. symmetry. apply substring_all.
    + rewrite append_cons. f_equal. apply IH. lia.
Qed.

Lemma endsWith_iff (s p : string) :
  JS.endsWith s p = true <-> exists t, s = t +:+ p.
Proof.
  unfold JS.endsWith. rewrite andb_true_iff, Nat.leb_le, String.eqb_eq. split.
  - intros [Hle Hsub].
    exists (String.substring 0 (String.length s - String.length p) s).
    pose proof (substring_split s (String.length s - String.length p)) as Hs.
    replace (String.length s - (String.length s - String.length p))%nat
      with (String.length p) in Hs by lia.
    rewrite Hsub in Hs. apply Hs. lia.
  - intros [t ->]. rewrite length_append. split; [lia|].
    replace (String.length t + String.length p - String.length p)%nat
      with (String.length t) by lia.
    rewrite substring_skip. apply substring_all.
Qed.

(** ** The descendant collector *)

Lemma Node_nested_ind (P : Node -> Prop) :
  (forall item, Forall P (memberNodes item) -> P item) ->
  forall item, P item.
Proof.
  intros Hstep. fix IH 1.
  intros item. apply Hstep. destruct item as [name nodes|f|e|e|m|v|k name];
    simpl; try constructor.
  revert nodes. fix IHnodes 1.
  intros [|child nodes]; constructor; [apply IH | apply IHnodes].
Qed.

Lemma findAll_unfold (nt : string) (item : Node) :
  findAll nt item =
  (if isNodeType nt item then [item] else [])
  ++ List.filter (isNodeType nt) (parameterNodes item)
  ++ flat_map (findAll nt) (memberNodes item).
Proof. destruct item; reflexivity. Qed.

Lemma findAll_sound (nt : string) (m item : Node) :
  In m (findAll nt item) -> InSubtree m item /\ nodeType m = nt.
Proof.
  revert m. induction item as [item IH] using Node_nested_ind. intros m Hin.
  rewrite findAll_unfold in Hin. apply in_app_or in Hin.
  destruct Hin as [Hin|Hin]; [|apply in_app_or in Hin; destruct Hin as [Hin|Hin]].
  - destruct (isNodeType nt item) eqn:Hnt; [|contradiction].
    destruct Hin as [<-|[]]. split; [constructor|].
    apply String.eqb_eq. exact Hnt.
  - apply filter_In in Hin. destruct Hin as [Hin Hnt].
    split; [apply InSubtree_parameter, Hin|].
    apply String.eqb_eq. exact Hnt.
  - apply in_flat_map in Hin. destruct Hin as [child [Hchild Hm]].
    rewrite List.Forall_forall in IH.
    destruct (IH child Hchild m Hm) as [Hsub Hnt].
    split; [|exact Hnt].
    destruct item; simpl in Hchild; try contradiction.
    eapply InSubtree_member; eauto.
Qed.

Lemma findAll_self (nt : string) (item : Node) :
  nodeType item = nt -> In item (findAll nt item).
Proof.
  intros Hnt. rewrite findAll_unfold. apply in_or_app. left.
  unfold isNodeType. rewrite Hnt, String.eqb_refl. left. reflexivity.
Qed.

Lemma findAll_complete (nt : string) (m item : Node) :
  InSubtree m item -> nodeType m = nt -> In m (findAll nt item).
Proof.
  intros Hsub Hnt. induction Hsub as [|n Hparam|name nodes child Hchild Hsub IH].
  - apply findAll_self, Hnt.
  - rewrite findAll_unfold. apply in_or_app. right. apply in_or_app. left.
    apply filter_In. split; [exact Hparam|].
    unfold isNodeType. rewrite Hnt. apply String.eqb_refl.
  - rewrite findAll_unfold. apply in_or_app. right. apply in_or_app. right.
    apply in_flat_map. eauto.
Qed.

Lemma findAll_iff (nt : string) (m item : Node) :
  In m (findAll nt item) <-> InSubtree m item /\ nodeType m = nt.
Proof.
  split; [apply findAll_sound | intros [? ?]; apply findAll_complete; assumption].
Qed.

Lemma nonempty_iff {A} (l : list A) :
  (0 <? length l)%nat = true <-> exists x, In x l.
Proof.
  destruct l as [|x l]; simpl.
  - split; [discriminate | intros [x []]].
  - split; [exists x; auto | reflexivity].
Qed.

(** ** [wrapWithAccessors] *)

Lemma accessors_dom (parseNatspec : Node -> NatSpec) :
  dom (accessors parseNatspec) = list_to_set (C := gset string) registryKeys.
Proof. unfold accessors. rewrite dom_list_to_map_L. reflexivity. Qed.

Lemma wrapWithAccessors_lookup (parseNatspec : Node -> NatSpec)
    (item : Node) (key : string) :
  wrapWithAccessors parseNatspec item !! key =
  match accessors parseNatspec !! key with
  | Some fn => Some (fn item)
  | None => ownProperties item !! key
  end.
Proof.
  unfold wrapWithAccessors, mapValues.
  rewrite lookup_union, lookup_fmap.
  destruct (accessors parseNatspec !! key) as [fn|]; simpl.
  - destruct (ownProperties item !! key); reflexivity.
  - destruct (ownProperties item !! key); reflexivity.
Qed.

(** C1. The wrapped item is the shallow merge of the item's own
    properties followed by the result of every accessor of the registry:
    on a key of the registry it holds what the accessor returns for the
    item (also over an own property of the same name, and also when the
    accessor returns [undefined]), on any other key it holds what the item
    holds; its keys are the item's own keys and all twenty registry keys. *)
Theorem wrapWithAccessors_shallow_merge (parseNatspec : Node -> NatSpec)
    (item : Node) :
  (forall key fn, accessors parseNatspec !! key = Some fn ->
     wrapWithAccessors parseNatspec item !! key = Some (fn item))
  /\ (forall key, accessors parseNatspec !! key = None ->
        wrapWithAccessors parseNatspec item !! key = ownProperties item !! key)
  /\ dom (wrapWithAccessors parseNatspec item)
     = dom (ownProperties item) ∪ list_to_set registryKeys
  /\ Forall (fun key => is_Some (wrapWithAccessors parseNatspec item !! key))
       registryKeys.
Proof.
  split; [|split; [|split]].
  - intros key fn Hfn. rewrite wrapWithAccessors_lookup, Hfn. reflexivity.
  - intros key Hnone. rewrite wrapWithAccessors_lookup, Hnone. reflexivity.
  - unfold wrapWithAccessors, mapValues.
    rewrite dom_union_L, dom_fmap_L, accessors_dom. apply (comm_L (∪)).
  - apply List.Forall_forall. intros key Hkey.
    apply elem_of_dom. unfold wrapWithAccessors, mapValues.
    rewrite dom_union_L, dom_fmap_L, accessors_dom.
    apply elem_of_union_l, elem_of_list_to_set, list_elem_of_In, Hkey.
Qed.

(** A contract has no visibility: the key is there and holds [undefined]. *)
Example wrapWithAccessors_absent_value (parseNatspec : Node -> NatSpec) :
  wrapWithAccessors parseNatspec (NContract "Token" []) !! "visibility"
  = Some VUndefined.
Proof.
  rewrite wrapWithAccessors_lookup. reflexivity.
Qed.

(** The accessor [name] overrides the own property [name] of a constructor. *)
Example wrapWithAccessors_override (parseNatspec : Node -> NatSpec) :
  let ctor := NFunction (mkFunctionDefinition "" "constructor" (Some "public")
                (Some "nonpayable") false (Some [])
                (mkParameterList []) (mkParameterList [])) in
  ownProperties ctor !! "name" = Some (VString "")
  /\ wrapWithAccessors parseNatspec ctor !! "name" = Some (VString "constructor")
  /\ wrapWithAccessors parseNatspec ctor !! "kind" = Some (VString "constructor").
Proof.
  cbv zeta. rewrite !wrapWithAccessors_lookup. repeat split; reflexivity.
Qed.

(** ** Recognising a node by its [nodeType] *)

Lemma nodeType_event (x : Node) :
  nodeType x = "EventDefinition" -> exists e, x = NEvent e.
Proof. destruct x as [| | | | | |[]]; simpl; try discriminate; eauto. Qed.

Lemma nodeType_function (x : Node) :
  nodeType x = "FunctionDefinition" -> exists f, x = NFunction f.
Proof. destruct x as [| | | | | |[]]; simpl; try discriminate; eauto. Qed.

Lemma nodeType_contract (x : Node) :
  nodeType x = "ContractDefinition" -> exists name nodes, x = NContract name nodes.
Proof. destruct x as [| | | | | |[]]; simpl; try discriminate; eauto. Qed.

Lemma looseEq_iff (v : option string) (lit : string) :
  JS.looseEq v lit = true <-> v = Some lit.
Proof.
  destruct v as [s|]; simpl.
  - rewrite String.eqb_eq. split; congruence.
  - split; discriminate.
Qed.

Lemma filter_none {A} (f : A -> bool) (l : list A) :
  Forall (fun x => f x = false) l -> List.filter f l = [].
Proof.
  induction 1 as [|x l Hx _ IH]; [reflexivity|]. simpl. rewrite Hx. exact IH.
Qed.

Lemma filter_filter_none {A} (f g : A -> bool) (l : list A) :
  Forall (fun x => f x = false) l -> List.filter f (List.filter g l) = [].
Proof.
  intros Hall. apply filter_none. apply List.Forall_forall. intros x Hx.
  apply filter_In in Hx. destruct Hx as [Hx _].
  rewrite List.Forall_forall in Hall. auto.
Qed.

Lemma plain_members_findAll (nt : string) (nodes : list Node) :
  Forall plainMember nodes ->
  List.filter getStateVariable (flat_map (findAll nt) nodes)
  = List.filter getStateVariable (List.filter (isNodeType nt) nodes).
Proof.
  induction 1 as [|n nodes [Hleaf Hparams] _ IH]; [reflexivity|].
  simpl. rewrite findAll_unfold, Hleaf. simpl. rewrite app_nil_r.
  rewrite !List.filter_app, IH, (filter_filter_none _ _ _ Hparams).
  rewrite app_nil_r. destruct (isNodeType nt n); [|reflexivity].
  change (n :: List.filter (isNodeType nt) nodes)
    with ([n] ++ List.filter (isNodeType nt) nodes).
  rewrite List.filter_app. reflexivity.
Qed.

(** ** [variables] *)

(** C2, as the documentation states it, fails: on a function the
    descendant search finds no state variable and gives the empty list,
    while [variables] gives [undefined]. *)
Lemma variables_function_is_absent :
  variables (NFunction transferFn)
  <> Some (List.filter getStateVariable
             (findAll "VariableDeclaration" (NFunction transferFn))).
Proof. simpl. discriminate. Qed.

(** C2, amended. On a contract [variables] is the list, in order, of the
    member nodes of the contract that are variable declarations flagged as
    state variables; when the members are plain (none has members of its
    own, no parameter is flagged as a state variable) these are the state
    variables the descendant search finds anywhere in the contract. On
    every other item [variables] is absent. *)
Theorem variables_of_contract_members (item : Node) :
  match item with
  | NContract name nodes =>
      variables item
      = Some (List.filter getStateVariable
                (List.filter (isNodeType "VariableDeclaration") nodes))
      /\ (Forall plainMember nodes ->
          variables item
          = Some (List.filter getStateVariable
                    (findAll "VariableDeclaration" item)))
  | _ => variables item = None
  end.
Proof.
  destruct item as [name nodes|f|e|e|m|v|k name]; try reflexivity.
  split; [reflexivity|].
  intros Hplain. rewrite findAll_unfold. simpl.
  rewrite (plain_members_findAll _ _ Hplain). reflexivity.
Qed.

(** ** [hasPublicMembers] *)

Lemma publicVariables_nonempty (nodes : list Node) :
  (0 <? length (List.filter isPublic
                  (List.filter getStateVariable
                     (List.filter (isNodeType "VariableDeclaration") nodes))))%nat
  = true
  <-> exists v, In (NVariable v) nodes
                /\ var_stateVariable v = true
                /\ var_visibility v = Some "public".
Proof.
  rewrite nonempty_iff. split.
  - intros [x Hx]. rewrite !filter_In in Hx.
    destruct Hx as [[[Hin _] Hstate] Hpub].
    destruct x as [| | | | |v|]; simpl in Hstate; try discriminate.
    exists v. apply looseEq_iff in Hpub. auto.
  - intros [v (Hin & Hstate & Hpub)]. exists (NVariable v).
    rewrite !filter_In. repeat split; auto.
    apply looseEq_iff. exact Hpub.
Qed.

Lemma events_nonempty (item : Node) :
  (0 <? length (findAll "EventDefinition" item))%nat = true
  <-> exists e, InSubtree (NEvent e) item.
Proof.
  rewrite nonempty_iff. split.
  - intros [x Hx]. apply findAll_iff in Hx. destruct Hx as [Hsub Hnt].
    destruct (nodeType_event x Hnt) as [e ->]. eauto.
  - intros [e He]. exists (NEvent e). apply findAll_iff. auto.
Qed.

Lemma isPublicOrExternal_function (f : FunctionDefinition) :
  isPublicOrExternal (NFunction f) = true
  <-> fn_visibility f = Some "public" \/ fn_visibility f = Some "external".
Proof.
  unfold isPublicOrExternal. rewrite orb_true_iff, !looseEq_iff. reflexivity.
Qed.

Lemma publicExternalFunctions_nonempty (item : Node) :
  (0 <? length (List.filter isPublicOrExternal
                  (findAll "FunctionDefinition" item)))%nat = true
  <-> exists f, InSubtree (NFunction f) item
                /\ (fn_visibility f = Some "public"
                    \/ fn_visibility f = Some "external").
Proof.
  rewrite nonempty_iff. split.
  - intros [x Hx]. apply filter_In in Hx. destruct Hx as [Hx Hvis].
    apply findAll_iff in Hx. destruct Hx as [Hsub Hnt].
    destruct (nodeType_function x Hnt) as [f ->].
    exists f. split; [exact Hsub|]. apply isPublicOrExternal_function, Hvis.
  - intros [f [Hsub Hvis]]. exists (NFunction f). apply filter_In. split.
    + apply findAll_iff. auto.
    + apply isPublicOrExternal_function, Hvis.
Qed.

(** C3. On a contract [hasPublicMembers] is true exactly when a member of
    the contract is a public state variable, or an event lies anywhere in
    the subtree of the contract, or a function of the subtree is public or
    external; the three tests are made in this order, a later one only when
    the earlier ones found nothing. *)
Theorem hasPublicMembers_contract (name : string) (nodes : list Node) :
  let c := NContract name nodes in
  (hasPublicMembers c = true <->
     (exists v, In (NVariable v) nodes
                /\ var_stateVariable v = true
                /\ var_visibility v = Some "public")
     \/ (exists e, InSubtree (NEvent e) c)
     \/ (exists f, InSubtree (NFunction f) c
                   /\ (fn_visibility f = Some "public"
                       \/ fn_visibility f = Some "external")))
  /\ hasPublicMembers c =
     match publicVariables c with
     | Some (_ :: _) => true
     | _ =>
         match events c with
         | _ :: _ => true
         | [] =>
             match publicExternalFunctions c with
             | _ :: _ => true
             | [] => false
             end
         end
     end.
Proof.
  cbv zeta. split.
  - rewrite <- publicVariables_nonempty, <- events_nonempty,
      <- publicExternalFunctions_nonempty.
    unfold hasPublicMembers.
    destruct (0 <? length (List.filter isPublic _))%nat;
      [split; auto|].
    destruct (0 <? length (findAll "EventDefinition" _))%nat;
      [split; auto|].
    destruct (0 <? length (List.filter isPublicOrExternal _))%nat;
      [split; auto|].
    split; [discriminate | intros [H|[H|H]]; discriminate].
  - unfold hasPublicMembers, publicVariables, events, publicExternalFunctions.
    destruct (List.filter isPublic
                (List.filter getStateVariable
                   (List.filter (isNodeType "VariableDeclaration") nodes)));
      [|reflexivity].
    destruct (findAll "EventDefinition" (NContract name nodes));
      [|reflexivity].
    destruct (List.filter isPublicOrExternal
                (findAll "FunctionDefinition" (NContract name nodes)));
      reflexivity.
Qed.

(** A contract whose only member is an event has public members; one
    whose only member is an internal function has none. *)
Example hasPublicMembers_samples :
  hasPublicMembers
    (NContract "Ledger"
       [NEvent (mkEventDefinition "Moved" (mkParameterList []))]) = true
  /\ hasPublicMembers
       (NContract "Ledger"
          [NFunction (mkFunctionDefinition "step" "function" (Some "internal")
                        (Some "nonpayable") false (Some [])
                        (mkParameterList []) (mkParameterList []))]) = false.
Proof. split; reflexivity. Qed.

(** C10. On an item that is not a contract [hasPublicMembers] is false. *)
Theorem hasPublicMembers_non_contract (item : Node) :
  nodeType item <> "ContractDefinition" -> hasPublicMembers item = false.
Proof.
  intros Hnt. destruct item; try reflexivity. contradiction Hnt. reflexivity.
Qed.

Lemma hasPublicMembers_non_contract_witness :
  nodeType (NFunction transferFn) <> "ContractDefinition"
  /\ hasPublicMembers (NFunction transferFn) = false.
Proof.
  split.
  - simpl. discriminate.
  - apply (hasPublicMembers_non_contract (NFunction transferFn)).
    simpl. discriminate.
Defined.

(** ** [signature] *)

Lemma join_resolved (sep : string) (ts : list string) :
  JS.join sep (map Some ts) = String.concat sep ts.
Proof.
  unfold JS.join. rewrite List.map_map. simpl. rewrite List.map_id. reflexivity.
Qed.

Lemma signatureText_resolved (name : string) (ps : ParameterList) (ts : list string) :
  map paramTypeString (parameters ps) = map Some ts ->
  signatureText name ps = name +:+ "(" +:+ String.concat "," ts +:+ ")".
Proof.
  intros Hts. unfold signatureText. rewrite Hts, join_resolved. reflexivity.
Qed.

(** C4. For a function of kind [function] and for an event, whose
    parameters have the resolved type strings [ts] in declaration order,
    [signature] is the declared name, an opening parenthesis, the type
    strings separated by commas and a closing parenthesis: a function
    [transfer] with parameter types [address] and [uint256] gives
    [transfer(address,uint256)]. For a constructor, a fallback and a
    receive function the kind identifier stands where the name would. For
    a contract and for every other item [signature] is absent. For the
    function [add] declared at file level the code gives
    [freeFunction(uint256,uint256)], not [add(uint256,uint256)]. *)
Theorem signature_name_and_types :
  (forall f ts,
     map paramTypeString (parameters (fn_parameters f)) = map Some ts ->
     fn_kind f = "function" ->
     signature (NFunction f)
     = Some (fn_name f +:+ "(" +:+ String.concat "," ts +:+ ")"))
  /\ (forall f ts,
        map paramTypeString (parameters (fn_parameters f)) = map Some ts ->
        In (fn_kind f) ["constructor"; "fallback"; "receive"] ->
        signature (NFunction f)
        = Some (fn_kind f +:+ "(" +:+ String.concat "," ts +:+ ")"))
  /\ (forall e ts,
        map paramTypeString (parameters (ev_parameters e)) = map Some ts ->
        signature (NEvent e)
        = Some (ev_name e +:+ "(" +:+ String.concat "," ts +:+ ")"))
  /\ (forall item,
        nodeType item <> "FunctionDefinition" ->
        nodeType item <> "EventDefinition" ->
        signature item = None)
  /\ signature (NFunction transferFn) = Some "transfer(address,uint256)"
  /\ fn_name addFn = "add"
  /\ signature (NFunction addFn) = Some "freeFunction(uint256,uint256)".
Proof.
  split; [|split; [|split; [|split; [|split; [|split]]]]].
  - intros f ts Hts Hkind. unfold signature.
    rewrite (signatureText_resolved _ _ _ Hts). unfold name.
    rewrite Hkind. reflexivity.
  - intros f ts Hts Hkind. unfold signature.
    rewrite (signatureText_resolved _ _ _ Hts). unfold name.
    destruct (String.eqb_spec (fn_kind f) "function") as [Heq|Hne];
      [|reflexivity].
    rewrite Heq in Hkind. simpl in Hkind.
    destruct Hkind as [H|[H|[H|[]]]]; discriminate H.
  - intros e ts Hts. unfold signature.
    rewrite (signatureText_resolved _ _ _ Hts). reflexivity.
  - intros item Hfn Hev.
    destruct item as [cname nodes|f|e|e|m|v|k oname]; try reflexivity.
    + contradiction Hfn. reflexivity.
    + contradiction Hev. reflexivity.
  - reflexivity.
  - reflexivity.
  - reflexivity.
Qed.

(** ** [getParams] *)

Lemma find_first {A} (f : A -> bool) (l : list A) (x : A) :
  List.find f l = Some x ->
  exists before after,
    l = before ++ x :: after /\ f x = true
    /\ Forall (fun y => f y = false) before.
Proof.
  induction l as [|a l IH]; simpl; [discriminate|].
  destruct (f a) eqn:Hfa.
  - intros [= <-]. exists [], l. auto.
  - intros Hfind. destruct (IH Hfind) as (before & after & -> & Hfx & Hall).
    exists (a :: before), after. auto.
Qed.

Lemma findDescription_matching (natspec : NatSpec) (name : string) :
  MatchingDescription natspec name (findDescription natspec name).
Proof.
  unfold findDescription. destruct (ns_params natspec) as [tags|] eqn:Htags.
  - destruct (List.find _ tags) as [tag|] eqn:Hfind.
    + destruct (find_first _ _ _ Hfind) as (before & after & Hsplit & Heq & Hall).
      apply String.eqb_eq in Heq.
      eapply Description_found; eauto.
      eapply List.Forall_impl; [|exact Hall]. simpl.
      intros earlier Hne Heq'. rewrite Heq', String.eqb_refl in Hne. discriminate.
    + apply Description_absent. intros tags' tag Hsome Hin Heq.
      rewrite Htags in Hsome. injection Hsome as <-.
      pose proof (List.find_none _ _ Hfind tag Hin) as Hne. simpl in Hne.
      rewrite Heq, String.eqb_refl in Hne. discriminate.
  - apply Description_absent. intros tags tag Hsome.
    rewrite Htags in Hsome. discriminate.
Qed.

(** C5. [getParams] gives one entry per formal parameter, in declaration
    order: the entry at a position has the name and the type string of the
    parameter at that position, and its [natspec] is the description of the
    NatSpec tag whose name equals the parameter's name (the first such
    tag), absent when no tag has that name. The accessors [params] and
    [returns] are [getParams] on the parameters and on the return
    parameters, with the NatSpec of the item. *)
Theorem getParams_merges_by_name (formals : ParameterList) (natspec : NatSpec) :
  length (getParams formals natspec) = length (parameters formals)
  /\ map p_name (getParams formals natspec) = map var_name (parameters formals)
  /\ (forall i p, nth_error (parameters formals) i = Some p ->
        exists entry,
          nth_error (getParams formals natspec) i = Some entry
          /\ p_name entry = var_name p
          /\ p_type entry = typeString (var_typeDescriptions p)
          /\ MatchingDescription natspec (var_name p) (p_natspec entry))
  /\ (forall parseNatspec f,
        params parseNatspec (NFunction f)
        = Some (getParams (fn_parameters f) (parseNatspec (NFunction f)))
        /\ returns parseNatspec (NFunction f)
           = Some (getParams (fn_returnParameters f) (parseNatspec (NFunction f))))
  /\ (forall parseNatspec e,
        params parseNatspec (NEvent e)
        = Some (getParams (ev_parameters e) (parseNatspec (NEvent e)))).
Proof.
  unfold getParams. repeat split.
  - apply List.length_map.
  - rewrite List.map_map. reflexivity.
  - intros i p Hp. eexists. split.
    + rewrite List.nth_error_map, Hp. reflexivity.
    + repeat split. apply findDescription_matching.
Qed.

(** A tag documents [to], none documents [amount]. *)
Example getParams_sample :
  getParams (fn_parameters transferFn)
    (mkNatSpec None None
       (Some [mkNatSpecParam "to" "the receiver";
              mkNatSpecParam "to" "ignored"]))
  = [mkParam "to" (Some "address") (Some "the receiver");
     mkParam "amount" (Some "uint256") None].
Proof. reflexivity. Qed.

(** ** [notTest] *)

(** C6. On a contract [notTest] is false exactly when the name of the
    contract starts with [Test], ends with [Test], starts with [Mock] or
    ends with [Mock], compared character by character; it is true on every
    other contract and on every item that is not a contract. It is false
    for contracts named [MockToken] and [TokenTest]. *)
Theorem notTest_naming_convention :
  (forall name nodes,
     notTest (NContract name nodes) = false <->
       (exists rest, name = "Test" +:+ rest)
       \/ (exists rest, name = rest +:+ "Test")
       \/ (exists rest, name = "Mock" +:+ rest)
       \/ (exists rest, name = rest +:+ "Mock"))
  /\ (forall name nodes,
        notTest (NContract name nodes) = true <->
          ~ ((exists rest, name = "Test" +:+ rest)
             \/ (exists rest, name = rest +:+ "Test")
             \/ (exists rest, name = "Mock" +:+ rest)
             \/ (exists rest, name = rest +:+ "Mock")))
  /\ (forall item, nodeType item <> "ContractDefinition" -> notTest item = true)
  /\ (forall nodes, notTest (NContract "MockToken" nodes) = false)
  /\ (forall nodes, notTest (NContract "TokenTest" nodes) = false).
Proof.
  assert (Hfalse : forall name nodes,
     notTest (NContract name nodes) = false <->
       (exists rest, name = "Test" +:+ rest)
       \/ (exists rest, name = rest +:+ "Test")
       \/ (exists rest, name = "Mock" +:+ rest)
       \/ (exists rest, name = rest +:+ "Mock")).
  { intros name nodes. unfold notTest.
    rewrite negb_false_iff, !orb_true_iff, !startsWith_iff, !endsWith_iff.
    tauto. }
  split; [exact Hfalse|]. split; [|split; [|split]].
  - intros name nodes. rewrite <- (Hfalse name nodes).
    destruct (notTest (NContract name nodes)); split.
    + intros _ H. discriminate H.
    + reflexivity.
    + intros H. discriminate H.
    + intros H. contradiction H. reflexivity.
  - intros item Hnt. destruct item; try reflexivity.
    contradiction Hnt. reflexivity.
  - reflexivity.
  - reflexivity.
Qed.

(** The suffix is compared at the end of the name only. *)
Example notTest_TokenTestable : notTest (NContract "TokenTestable" []) = true.
Proof. reflexivity. Qed.

(** ** [name] *)

(** C7. On a function of kind [function] the accessor [name] gives the
    declared name, on a constructor, a fallback and a receive function the
    kind identifier, and on every item that is not a function the declared
    name. On the function [add] declared at file level, whose kind is
    [freeFunction], the code gives [freeFunction] and not the declared
    name. *)
Theorem name_of_function_kinds :
  (forall f, fn_kind f = "function" -> name (NFunction f) = fn_name f)
  /\ (forall f, In (fn_kind f) ["constructor"; "fallback"; "receive"] ->
        name (NFunction f) = fn_kind f)
  /\ (forall item, nodeType item <> "FunctionDefinition" ->
        name item = declaredName item)
  /\ fn_name addFn = "add"
  /\ fn_kind addFn = "freeFunction"
  /\ name (NFunction addFn) = "freeFunction".
Proof.
  split; [|split; [|split; [|split; [|split]]]]; try reflexivity.
  - intros f Hkind. unfold name. rewrite Hkind. reflexivity.
  - intros f Hkind. unfold name.
    destruct (String.eqb_spec (fn_kind f) "function") as [Heq|Hne];
      [|reflexivity].
    rewrite Heq in Hkind. simpl in Hkind.
    destruct Hkind as [H|[H|[H|[]]]]; discriminate H.
  - intros item Hnt. destruct item; try reflexivity.
    contradiction Hnt. reflexivity.
Qed.

(** ** Items an accessor has no branch for *)

(** C8, as the documentation states it, fails: [notTest] and
    [hasPublicMembers] have a branch for contracts only, and on a function
    they give the booleans [true] and [false], not [undefined]. *)
Lemma boolean_accessors_on_function :
  wrapWithAccessors (fun _ => noNatspec) (NFunction transferFn) !! "notTest"
  = Some (VBool true)
  /\ wrapWithAccessors (fun _ => noNatspec) (NFunction transferFn) !! "hasPublicMembers"
     = Some (VBool false)
  /\ wrapWithAccessors (fun _ => noNatspec) (NFunction transferFn) !! "notTest"
     <> Some VUndefined.
Proof.
  rewrite !wrapWithAccessors_lookup.
  split; [reflexivity|]. split; [reflexivity|]. discriminate.
Qed.

Lemma throwing_accessors_dom (parseNatspec : Node -> option NatSpec) :
  dom (Throwing.accessors parseNatspec) = list_to_set (C := gset string) registryKeys.
Proof. unfold Throwing.accessors. rewrite dom_list_to_map_L. reflexivity. Qed.

(** With a [parseNatspec] that does not throw the two registries agree,
    key by key and item by item. *)
Lemma throwing_accessors_agree (parseNatspec : Node -> NatSpec) (item : Node) :
  Forall (fun key =>
            (fun fn => fn item)
              <$> Throwing.accessors (fun i => Some (parseNatspec i)) !! key
            = (fun fn => Returned (fn item)) <$> accessors parseNatspec !! key)
    registryKeys.
Proof.
  repeat constructor; destruct item as [cname nodes|f|e|e|m|v|k oname];
    reflexivity.
Qed.

Lemma throwing_accessors_lookup (parseNatspec : Node -> option NatSpec)
    (key : string) (fn : Node -> Outcome) :
  Throwing.accessors parseNatspec !! key = Some fn ->
  In (key, fn) (Throwing.accessorTable parseNatspec).
Proof.
  intros H. unfold Throwing.accessors in H.
  apply elem_of_list_to_map_2, list_elem_of_In in H. exact H.
Qed.

(** C8, amended. Every accessor with an optional result gives
    [undefined], and does not throw, on an item of a node type it has no
    branch for, also when [parseNatspec] would throw on the item: [params]
    and [returns] do not call it there. So [visibility] is absent on a
    contract, [typeName] on every item that is not a variable,
    [stateMutability] on an event. [notTest] and [hasPublicMembers] give
    [true] and [false] on an item that is not a contract. No accessor but
    [natspec], [params] and [returns] throws on any item; these three
    throw when [parseNatspec] does, [params] on a function and on an
    event, [returns] on a function. *)
Theorem optional_accessors_absent (parseNatspec : Node -> option NatSpec) :
  (forall item key kinds,
     In (key, kinds) optionalAccessors -> ~ In (nodeType item) kinds ->
     exists fn, Throwing.accessors parseNatspec !! key = Some fn
                /\ fn item = Returned VUndefined)
  /\ (forall name nodes, visibility (NContract name nodes) = None)
  /\ (forall item, nodeType item <> "VariableDeclaration" -> typeName item = None)
  /\ (forall e, stateMutability (NEvent e) = None)
  /\ (forall item, nodeType item <> "ContractDefinition" ->
        notTest item = true /\ hasPublicMembers item = false
        /\ (exists fn, Throwing.accessors parseNatspec !! "notTest" = Some fn
                       /\ fn item = Returned (VBool true))
        /\ (exists fn, Throwing.accessors parseNatspec !! "hasPublicMembers" = Some fn
                       /\ fn item = Returned (VBool false)))
  /\ (forall key fn item,
        Throwing.accessors parseNatspec !! key = Some fn ->
        ~ In key ["natspec"; "params"; "returns"] ->
        fn item <> Thrown)
  /\ (forall item, parseNatspec item = None ->
        Throwing.natspec parseNatspec item = Thrown
        /\ (In (nodeType item) ["FunctionDefinition"; "EventDefinition"] ->
            Throwing.params parseNatspec item = Thrown)
        /\ (nodeType item = "FunctionDefinition" ->
            Throwing.returns parseNatspec item = Thrown)).
Proof.
  split; [|split; [|split; [|split; [|split; [|split]]]]].
  - intros item key kinds Hin Hnot. simpl in Hin.
    repeat (destruct Hin as [Heq|Hin];
            [injection Heq as <- <-;
             destruct item as [name nodes|f|e|e|m|v|[] name];
             first [ exfalso; apply Hnot; simpl; tauto
                   | eexists; split; reflexivity ] |]).
    contradiction.
  - reflexivity.
  - intros item Hnt. destruct item; try reflexivity.
    contradiction Hnt. reflexivity.
  - reflexivity.
  - intros item Hnt.
    destruct item; try (repeat split; eexists; split; reflexivity).
    contradiction Hnt. reflexivity.
  - intros key fn item Hfn Hkey. apply throwing_accessors_lookup in Hfn.
    simpl in Hfn.
    repeat (destruct Hfn as [Heq|Hfn];
            [injection Heq as <- <-;
             first [ discriminate
                   | exfalso; apply Hkey; simpl; tauto ] |]).
    contradiction.
  - intros item Hthrow. unfold Throwing.natspec. rewrite Hthrow.
    split; [reflexivity|]. split.
    + intros Hkind. destruct item as [cname nodes|f|e|e|m|v|[] oname];
        simpl in Hkind; try (destruct Hkind as [H|[H|[]]]; discriminate H);
        simpl; rewrite Hthrow; reflexivity.
    + intros Hkind. destruct item as [cname nodes|f|e|e|m|v|[] oname];
        simpl in Hkind; try discriminate Hkind.
      simpl. rewrite Hthrow. reflexivity.
Qed.

(** The three accessors that parse throw on a function whose NatSpec
    cannot be parsed; on a contract [params] and [returns] do not. *)
Example throwing_samples :
  Throwing.natspec (fun _ => None) (NFunction transferFn) = Thrown
  /\ Throwing.params (fun _ => None) (NFunction transferFn) = Thrown
  /\ Throwing.returns (fun _ => None) (NFunction transferFn) = Thrown
  /\ Throwing.params (fun _ => None) (NContract "Token" []) = Returned VUndefined
  /\ Throwing.returns (fun _ => None) (NContract "Token" []) = Returned VUndefined.
Proof. repeat split. Qed.

(** ** The helper [h] *)

Lemma concat_repeat_step (c : string) (n : nat) :
  String.concat "" (repeat c (S n)) = c +:+ String.concat "" (repeat c n).
Proof.
  destruct n as [|n]; simpl.
  - induction c as [|a c IH]; [reflexivity|].
    rewrite append_cons. f_equal. exact IH.
  - reflexivity.
Qed.

Lemma length_concat_repeat (n : nat) :
  String.length (String.concat "" (repeat "#" n)) = n.
Proof.
  induction n as [|n IH]; [reflexivity|].
  rewrite concat_repeat_step, length_append, IH. reflexivity.
Qed.

(** C9, as the documentation states it, fails: at base level 1 and
    sub-level 2 the helper writes two markers, not three. *)
Lemma h_one_two :
  h (Some 1%Z) (ArgNumber 2) = Some "##"
  /\ Z.of_nat (String.length "##") <> Z.max 1 (1 + 2).
Proof. split; [reflexivity | simpl; lia]. Qed.

(** C9, amended. With the base level [hlevel] (1 when it is not set) and
    the requested sub-level raised to at least 1 (1 when the argument is
    not a number), the helper writes base + sub-level - 1 markers [#],
    provided that count is an array length; the string is made of that
    many copies of the marker, and from a base level of at least 1 there is
    at least one. *)
Theorem h_marker_count (hlevel : option Z) (hsublevel : HelperArg) :
  let base := default 1%Z hlevel in
  let sub := match hsublevel with
             | ArgNumber x => Z.max 1 x
             | ArgObject => 1%Z
             end in
  (0 <= base + sub - 1 < 2 ^ 32)%Z ->
  exists markers,
    h hlevel hsublevel = Some markers
    /\ markers = String.concat "" (repeat "#" (Z.to_nat (base + sub - 1)))
    /\ Z.of_nat (String.length markers) = (base + sub - 1)%Z
    /\ (1 <= base -> 1 <= Z.of_nat (String.length markers))%Z.
Proof.
  intros base sub Hrange. unfold h, JS.filledArrayJoin. fold sub. fold base.
  destruct (Z.leb_spec 0 (base + sub - 1)) as [_|Hneg]; [|lia].
  destruct (Z.ltb_spec (base + sub - 1) (2 ^ 32)) as [_|Hbig]; [|lia].
  simpl. eexists. split; [reflexivity|]. split; [reflexivity|].
  rewrite length_concat_repeat, Z2Nat.id by lia.
  split; [reflexivity|]. subst sub. destruct hsublevel; lia.
Qed.

Lemma h_marker_count_witness :
  exists markers,
    h (Some 2%Z) (ArgNumber 3) = Some markers
    /\ markers = String.concat "" (repeat "#" (Z.to_nat (2 + Z.max 1 3 - 1)))
    /\ Z.of_nat (String.length markers) = (2 + Z.max 1 3 - 1)%Z
    /\ (1 <= 2 -> 1 <= Z.of_nat (String.length markers))%Z.
Proof.
  apply (h_marker_count (Some 2%Z) (ArgNumber 3)). simpl. lia.
Defined.

(** Outside the array lengths the array constructor throws. *)
Lemma h_range_error (hlevel : option Z) (hsublevel : HelperArg) :
  (default 1 hlevel
   + match hsublevel with ArgNumber x => Z.max 1 x | ArgObject => 1 end - 1 < 0)%Z ->
  h hlevel hsublevel = None.
Proof.
  intros Hneg. unfold h, JS.filledArrayJoin.
  destruct (Z.leb_spec 0
              (default 1 hlevel
               + match hsublevel with ArgNumber x => Z.max 1 x | ArgObject => 1 end
               - 1)%Z) as [Hle|_]; [lia | reflexivity].
Qed.

(** * Further properties of the helpers and of the accessors *)

(** ** More on strings *)

Lemma append_assoc (a b c : string) : (a +:+ b) +:+ c = a +:+ (b +:+ c).
Proof.
  induction a as [|x a IH]; [reflexivity|].
  rewrite !append_cons. f_equal. exact IH.
Qed.

Lemma append_empty_r (s : string) : s +:+ "" = s.
Proof.
  induction s as [|x s IH]; [reflexivity|].
  rewrite append_cons. f_equal. exact IH.
Qed.

Lemma substring_prefix (t w : string) :
  String.substring 0 (String.length t) (t +:+ w) = t.
Proof.
  induction t as [|x t IH].
  - destruct w; reflexivity.
  - rewrite append_cons. simpl. f_equal. exact IH.
Qed.

Lemma append_cancel_l (w a b : string) : w +:+ a = w +:+ b -> a = b.
Proof.
  induction w as [|x w IH]; [auto|].
  rewrite !append_cons. intros [= H]. auto.
Qed.

Lemma append_cancel_r (w a b : string) : a +:+ w = b +:+ w -> a = b.
Proof.
  intros H.
  assert (Hlen : String.length a = String.length b).
  { apply (f_equal String.length) in H. rewrite !length_append in H. lia. }
  rewrite <- (substring_prefix a w), H, Hlen. apply substring_prefix.
Qed.

Lemma stripPrefix_iff (w s rest : string) :
  stripPrefix w s = Some rest <-> s = w +:+ rest.
Proof.
  unfold stripPrefix. destruct (JS.startsWith s w) eqn:Hstart.
  - apply startsWith_iff in Hstart. destruct Hstart as [t ->].
    rewrite length_append.
    replace (String.length w + String.length t - String.length w)%nat
      with (String.length t) by lia.
    rewrite substring_skip, substring_all. split.
    + intros [= ->]. reflexivity.
    + intros H. apply append_cancel_l in H. congruence.
  - split; [discriminate|]. intros ->.
    assert (JS.startsWith (w +:+ rest) w = true) as Hyes
      by (apply startsWith_iff; eauto).
    congruence.
Qed.

Lemma stripSuffix_iff (w s rest : string) :
  stripSuffix w s = Some rest <-> s = rest +:+ w.
Proof.
  unfold stripSuffix. destruct (JS.endsWith s w) eqn:Hend.
  - apply endsWith_iff in Hend. destruct Hend as [t ->].
    rewrite length_append.
    replace (String.length t + String.length w - String.length w)%nat
      with (String.length t) by lia.
    rewrite substring_prefix. split.
    + intros [= ->]. reflexivity.
    + intros H. apply append_cancel_r in H. congruence.
  - split; [discriminate|]. intros ->.
    assert (JS.endsWith (rest +:+ w) w = true) as Hyes
      by (apply endsWith_iff; eauto).
    congruence.
Qed.

(** ** [trim] *)

Lemma whiteSpace_nonempty (w : string) :
  In w whiteSpace -> (1 <= String.length w)%nat.
Proof.
  intros Hin. simpl in Hin.
  repeat (destruct Hin as [<-|Hin]; [simpl; lia|]). contradiction.
Qed.

Lemma stripOne_some (strip : string -> string -> option string)
    (ws : list string) (s rest : string) :
  stripOne strip ws s = Some rest ->
  exists w, In w ws /\ strip w s = Some rest.
Proof.
  induction ws as [|w ws IH]; simpl; [discriminate|].
  destruct (strip w s) as [r|] eqn:Hw.
  - intros [= <-]. eauto.
  - intros H. destruct (IH H) as [w' [Hin Hw']]. eauto.
Qed.

Lemma stripOne_none (strip : string -> string -> option string)
    (ws : list string) (s : string) :
  stripOne strip ws s = None <-> forall w, In w ws -> strip w s = None.
Proof.
  induction ws as [|w ws IH]; simpl.
  - split; [intros _ w [] | reflexivity].
  - destruct (strip w s) as [r|] eqn:Hw.
    + split; [discriminate|]. intros H. rewrite <- Hw. apply H. auto.
    + rewrite IH. split.
      * intros H w' [<-|Hin]; auto.
      * intros H w' Hin. apply H. auto.
Qed.

Lemma stripAll_none (strip1 : string -> option string) (fuel : nat) (s : string) :
  strip1 s = None -> stripAll strip1 fuel s = s.
Proof. intros H. destruct fuel; simpl; [|rewrite H]; reflexivity. Qed.

Lemma stripAll_exhausts (strip1 : string -> option string) :
  (forall s rest, strip1 s = Some rest ->
     (String.length rest < String.length s)%nat) ->
  forall fuel s, (String.length s <= fuel)%nat ->
    strip1 (stripAll strip1 fuel s) = None.
Proof.
  intros Hless fuel. induction fuel as [|fuel IH]; intros s Hlen; simpl.
  - destruct (strip1 s) as [rest|] eqn:Hs; [|reflexivity].
    apply Hless in Hs. lia.
  - destruct (strip1 s) as [rest|] eqn:Hs; [|exact Hs].
    apply IH. apply Hless in Hs. lia.
Qed.

Lemma stripOne_prefix_shorter (s rest : string) :
  stripOne stripPrefix whiteSpace s = Some rest ->
  (String.length rest < String.length s)%nat.
Proof.
  intros H. apply stripOne_some in H. destruct H as [w [Hin Hw]].
  apply stripPrefix_iff in Hw. subst s. rewrite length_append.
  pose proof (whiteSpace_nonempty w Hin). lia.
Qed.

Lemma stripOne_suffix_shorter (s rest : string) :
  stripOne stripSuffix whiteSpace s = Some rest ->
  (String.length rest < String.length s)%nat.
Proof.
  intros H. apply stripOne_some in H. destruct H as [w [Hin Hw]].
  apply stripSuffix_iff in Hw. subst s. rewrite length_append.
  pose proof (whiteSpace_nonempty w Hin). lia.
Qed.

Lemma WhiteOnly_append (a b : string) :
  WhiteOnly a -> WhiteOnly b -> WhiteOnly (a +:+ b).
Proof.
  intros Ha Hb. induction Ha as [|w a Hw Ha IH]; [exact Hb|].
  rewrite append_assoc. constructor; assumption.
Qed.

Lemma WhiteOnly_one (w : string) : In w whiteSpace -> WhiteOnly w.
Proof.
  intros Hin. rewrite <- (append_empty_r w). constructor; [exact Hin | constructor].
Qed.

Lemma trimStart_splits (fuel : nat) (s : string) :
  exists pre,
    WhiteOnly pre
    /\ s = pre +:+ stripAll (stripOne stripPrefix whiteSpace) fuel s.
Proof.
  revert s. induction fuel as [|fuel IH]; intros s; cbn [stripAll].
  - exists "". split; [constructor | reflexivity].
  - destruct (stripOne stripPrefix whiteSpace s) as [rest|] eqn:Hs.
    + apply stripOne_some in Hs. destruct Hs as [w [Hin Hw]].
      apply stripPrefix_iff in Hw. destruct (IH rest) as [pre [Hpre Hrest]].
      exists (w +:+ pre). split; [constructor; assumption|].
      rewrite append_assoc, <- Hrest. exact Hw.
    + exists "". split; [constructor | reflexivity].
Qed.

Lemma trimEnd_splits (fuel : nat) (s : string) :
  exists post,
    WhiteOnly post
    /\ s = stripAll (stripOne stripSuffix whiteSpace) fuel s +:+ post.
Proof.
  revert s. induction fuel as [|fuel IH]; intros s; cbn [stripAll].
  - exists "". split; [constructor | symmetry; apply append_empty_r].
  - destruct (stripOne stripSuffix whiteSpace s) as [rest|] eqn:Hs.
    + apply stripOne_some in Hs. destruct Hs as [w [Hin Hw]].
      apply stripSuffix_iff in Hw. destruct (IH rest) as [post [Hpost Hrest]].
      exists (post +:+ w). split.
      * apply WhiteOnly_append; [exact Hpost | apply WhiteOnly_one, Hin].
      * rewrite <- append_assoc, <- Hrest. exact Hw.
    + exists "". split; [constructor | symmetry; apply append_empty_r].
Qed.

Lemma no_prefix_iff (s : string) :
  stripOne stripPrefix whiteSpace s = None
  <-> forall w rest, In w whiteSpace -> s <> w +:+ rest.
Proof.
  rewrite stripOne_none. split.
  - intros H w rest Hin Heq. apply stripPrefix_iff in Heq.
    rewrite (H w Hin) in Heq. discriminate.
  - intros H w Hin. destruct (stripPrefix w s) as [rest|] eqn:Hw; [|reflexivity].
    apply stripPrefix_iff in Hw. exfalso. exact (H w rest Hin Hw).
Qed.

Lemma no_suffix_iff (s : string) :
  stripOne stripSuffix whiteSpace s = None
  <-> forall w rest, In w whiteSpace -> s <> rest +:+ w.
Proof.
  rewrite stripOne_none. split.
  - intros H w rest Hin Heq. apply stripSuffix_iff in Heq.
    rewrite (H w Hin) in Heq. discriminate.
  - intros H w Hin. destruct (stripSuffix w s) as [rest|] eqn:Hw; [|reflexivity].
    apply stripSuffix_iff in Hw. exfalso. exact (H w rest Hin Hw).
Qed.

Lemma Trimmed_fixed (s : string) : Trimmed s -> stringTrim s = s.
Proof.
  intros [Hpre Hsuf]. unfold stringTrim, trimStart, trimEnd.
  rewrite (stripAll_none _ _ s) by (apply no_prefix_iff, Hpre).
  apply stripAll_none. apply no_suffix_iff, Hsuf.
Qed.

Lemma stringTrim_splits (s : string) :
  exists pre post,
    WhiteOnly pre /\ WhiteOnly post
    /\ s = pre +:+ stringTrim s +:+ post
    /\ Trimmed (stringTrim s).
Proof.
  unfold stringTrim.
  destruct (trimStart_splits (String.length s) s) as [pre [Hpre Hs]].
  fold (trimStart s) in Hs.
  destruct (trimEnd_splits (String.length (trimStart s)) (trimStart s))
    as [post [Hpost Ht]].
  fold (trimEnd (trimStart s)) in Ht.
  exists pre, post. split; [exact Hpre|]. split; [exact Hpost|].
  split; [rewrite <- Ht; exact Hs|].
  assert (Hstart : stripOne stripPrefix whiteSpace (trimStart s) = None).
  { apply (stripAll_exhausts _ stripOne_prefix_shorter). lia. }
  assert (Hend : stripOne stripSuffix whiteSpace (trimEnd (trimStart s)) = None).
  { apply (stripAll_exhausts _ stripOne_suffix_shorter). lia. }
  split.
  - intros w rest Hin Heq.
    rewrite no_prefix_iff in Hstart. apply (Hstart w (rest +:+ post) Hin).
    rewrite Ht, Heq. apply append_assoc.
  - apply no_suffix_iff, Hend.
Qed.

(** X15. [trim] of a string takes white space off both ends and nothing
    else: the text is the result with white space before and after it, and
    the result neither starts nor ends with a white space character. *)
Theorem trim_splits (s : string) :
  exists t pre post,
    trim (Some s) = Some t
    /\ WhiteOnly pre /\ WhiteOnly post
    /\ s = pre +:+ t +:+ post
    /\ Trimmed t.
Proof.
  destruct (stringTrim_splits s) as (pre & post & Hpre & Hpost & Hs & Ht).
  exists (stringTrim s), pre, post. auto.
Qed.

(** X16. [trim] is idempotent, and it answers a value that is not a
    string with [undefined]. *)
Theorem trim_idempotent (text : option string) :
  trim (trim text) = trim text /\ trim None = None.
Proof.
  split; [|reflexivity]. destruct text as [s|]; [|reflexivity]. simpl.
  destruct (stringTrim_splits s) as (pre & post & _ & _ & _ & Ht).
  rewrite (Trimmed_fixed _ Ht). reflexivity.
Qed.

(** X17. [trim] leaves a string as it is exactly when the string neither
    starts nor ends with a white space character. *)
Theorem trim_identity_iff (s : string) :
  trim (Some s) = Some s <-> Trimmed s.
Proof.
  simpl. split.
  - intros [= Hs]. destruct (stringTrim_splits s) as (pre & post & _ & _ & _ & Ht).
    rewrite Hs in Ht. exact Ht.
  - intros Ht. rewrite (Trimmed_fixed _ Ht). reflexivity.
Qed.

(** ** [joinLines] *)

Lemma replaceNewlineRuns_no_newline (inRun : bool) (s : string) :
  ~ In newline (chars (replaceNewlineRuns inRun s)).
Proof.
  revert inRun. induction s as [|c s IH]; intros inRun; simpl; [tauto|].
  destruct (Ascii.eqb_spec c newline) as [->|Hne].
  - destruct inRun; [apply IH|].
    simpl. intros [Heq|Hin]; [discriminate Heq | exact (IH _ Hin)].
  - simpl. intros [Heq|Hin]; [congruence | exact (IH _ Hin)].
Qed.

Lemma replaceNewlineRuns_length (inRun : bool) (s : string) :
  (String.length (replaceNewlineRuns inRun s) <= String.length s)%nat.
Proof.
  revert inRun. induction s as [|c s IH]; intros inRun; simpl; [lia|].
  destruct (Ascii.eqb c newline); [destruct inRun|]; simpl;
    match goal with |- context [replaceNewlineRuns ?b s] => specialize (IH b) end;
    lia.
Qed.

Lemma replaceNewlineRuns_without_newline (inRun : bool) (s : string) :
  ~ In newline (chars s) -> replaceNewlineRuns inRun s = s.
Proof.
  revert inRun. induction s as [|c s IH]; intros inRun Hno; simpl; [reflexivity|].
  simpl in Hno. destruct (Ascii.eqb_spec c newline) as [->|Hne]; [tauto|].
  f_equal. apply IH. tauto.
Qed.

Lemma replaceNewlineRuns_append (a x : string) :
  ~ In newline (chars a) ->
  replaceNewlineRuns false (a +:+ x) = a +:+ replaceNewlineRuns false x.
Proof.
  induction a as [|c a IH]; intros Hno; [reflexivity|].
  rewrite !append_cons. simpl in *.
  destruct (Ascii.eqb_spec c newline) as [->|Hne]; [tauto|].
  f_equal. apply IH. tauto.
Qed.

Lemma replaceNewlineRuns_after_run (n : nat) (b : string) :
  (forall rest, b <> String newline rest) ->
  replaceNewlineRuns true (newlineRun n +:+ b) = replaceNewlineRuns false b.
Proof.
  intros Hb. induction n as [|n IH].
  - change (newlineRun 0 +:+ b) with b.
    destruct b as [|c b]; [reflexivity|]. simpl.
    destruct (Ascii.eqb_spec c newline) as [->|Hne]; [|reflexivity].
    exfalso. exact (Hb b eq_refl).
  - change (newlineRun (S n)) with (String newline (newlineRun n)).
    rewrite append_cons. simpl. exact IH.
Qed.

(** X18. The result of [joinLines] holds no newline and is no longer than
    the text; a value that is not a string is answered with
    [undefined]. *)
Theorem joinLines_no_newline (s : string) :
  (exists t,
     joinLines (Some s) = Some t
     /\ ~ In newline (chars t)
     /\ (String.length t <= String.length s)%nat)
  /\ joinLines None = None.
Proof.
  split; [|reflexivity]. eexists. split; [reflexivity|]. split.
  - apply replaceNewlineRuns_no_newline.
  - apply replaceNewlineRuns_length.
Qed.

(** X19. [joinLines] leaves a string as it is exactly when the string
    holds no newline; so joining the lines a second time changes
    nothing. *)
Theorem joinLines_identity_iff (s : string) :
  (joinLines (Some s) = Some s <-> ~ In newline (chars s))
  /\ joinLines (joinLines (Some s)) = joinLines (Some s).
Proof.
  simpl. split; [split|].
  - intros [= Hs]. rewrite <- Hs. apply replaceNewlineRuns_no_newline.
  - intros Hno. rewrite replaceNewlineRuns_without_newline by exact Hno.
    reflexivity.
  - rewrite (replaceNewlineRuns_without_newline false (replaceNewlineRuns false s))
      by apply replaceNewlineRuns_no_newline.
    reflexivity.
Qed.

(** X20. A run of one or more newlines between a line [a] and a rest [b]
    that does not start with a newline becomes one space: the result is
    [a], a space, and the joined lines of [b]. *)
Theorem joinLines_collapses_run (a b : string) (n : nat) :
  ~ In newline (chars a) ->
  (forall rest, b <> String newline rest) ->
  exists t,
    joinLines (Some b) = Some t
    /\ joinLines (Some (a +:+ newlineRun (S n) +:+ b)) = Some (a +:+ " " +:+ t).
Proof.
  intros Ha Hb. eexists. split; [reflexivity|]. simpl. f_equal.
  rewrite (replaceNewlineRuns_append _ _ Ha).
  change (newlineRun (S n)) with (String newline (newlineRun n)).
  rewrite append_cons. simpl.
  rewrite (replaceNewlineRuns_after_run _ _ Hb). reflexivity.
Qed.

Lemma joinLines_collapses_run_witness :
  exists t,
    joinLines (Some "two") = Some t
    /\ joinLines (Some ("one" +:+ newlineRun 3 +:+ "two"))
       = Some ("one" +:+ " " +:+ t).
Proof.
  apply (joinLines_collapses_run "one" "two" 2).
  - simpl. intros [H|[H|[H|[]]]]; discriminate H.
  - intros rest H. discriminate H.
Defined.

(** ** More on [h] *)

(** X21. With an integer base level and an integer sub-level, [h] throws
    whenever the number of markers, base level plus sub-level minus 1, is
    negative or not below 2^32. *)
Theorem h_throws_out_of_range (hlevel : option Z) (hsublevel : HelperArg) :
  let count :=
    (default 1 hlevel
     + match hsublevel with ArgNumber x => Z.max 1 x | ArgObject => 1 end
     - 1)%Z in
  (count < 0 \/ 2 ^ 32 <= count)%Z ->
  h hlevel hsublevel = None.
Proof.
  intros count Hout. unfold h, JS.filledArrayJoin. fold count.
  destruct (Z.leb_spec 0 count) as [Hle|Hneg]; [|reflexivity].
  destruct (Z.ltb_spec count (2 ^ 32)) as [Hlt|Hge]; [lia | reflexivity].
Qed.

Lemma h_throws_out_of_range_witness :
  h (Some (-5)%Z) ArgObject = None
  /\ h (Some 1%Z) (ArgNumber (2 ^ 32)) = None.
Proof.
  split.
  - apply (h_throws_out_of_range (Some (-5)%Z) ArgObject). simpl. lia.
  - apply (h_throws_out_of_range (Some 1%Z) (ArgNumber (2 ^ 32))). simpl. lia.
Defined.

(** X22. A sub-level of 1 or less counts as 1, as does an argument that
    is not a number: the helper writes what it writes without argument. *)
Theorem h_sub_level_floor (hlevel : option Z) (x : Z) :
  (x <= 1)%Z ->
  h hlevel (ArgNumber x) = h hlevel ArgObject
  /\ h hlevel (ArgNumber x) = h hlevel (ArgNumber 1).
Proof.
  intros Hx. unfold h. rewrite !Z.max_l by lia. split; reflexivity.
Qed.

Lemma h_sub_level_floor_witness :
  h (Some 2%Z) (ArgNumber (-3)) = h (Some 2%Z) ArgObject
  /\ h (Some 2%Z) (ArgNumber (-3)) = h (Some 2%Z) (ArgNumber 1).
Proof. apply (h_sub_level_floor (Some 2%Z) (-3)). lia. Defined.

(** ** [type] *)

(** X1. The label [type] gives each kind of item: the node type without
    its suffix, words set apart. *)
Theorem type_labels (item : Node) :
  type item =
  match item with
  | NContract _ _ => "Contract"
  | NFunction _ => "Function"
  | NEvent _ => "Event"
  | NError _ => "Error"
  | NModifier _ => "Modifier"
  | NVariable _ => "Variable"
  | NOther StructDefinition _ => "Struct"
  | NOther EnumDefinition _ => "Enum"
  | NOther UserDefinedValueTypeDefinition _ => "User Defined Value Type"
  end.
Proof. destruct item as [| | | | | |[] ?]; reflexivity. Qed.

Lemma last_characters (a p : string) :
  String.substring (String.length (a +:+ p) - String.length p) (String.length p)
    (a +:+ p) = p.
Proof.
  rewrite length_append.
  replace (String.length a + String.length p - String.length p)%nat
    with (String.length a) by lia.
  rewrite substring_skip. apply substring_all.
Qed.

Lemma without_suffix (a p : string) :
  String.substring 0 (String.length (a +:+ p) - String.length p) (a +:+ p) = a.
Proof.
  rewrite length_append.
  replace (String.length a + String.length p - String.length p)%nat
    with (String.length a) by lia.
  apply substring_prefix.
Qed.

(** X2. The first replacement of [type] takes a final [Definition] or a
    final [Declaration] off a node type, and leaves a node type with
    neither ending as it is. *)
Theorem stripDefinitionSuffix_spec (s : string) :
  (forall t, s = t +:+ "Definition" -> JS.stripDefinitionSuffix s = t)
  /\ (forall t, s = t +:+ "Declaration" -> JS.stripDefinitionSuffix s = t)
  /\ ((forall t, s <> t +:+ "Definition") ->
      (forall t, s <> t +:+ "Declaration") ->
      JS.stripDefinitionSuffix s = s).
Proof.
  unfold JS.stripDefinitionSuffix. split; [|split].
  - intros t ->.
    assert (JS.endsWith (t +:+ "Definition") "Definition" = true) as ->
      by (apply endsWith_iff; eauto).
    apply (without_suffix t "Definition").
  - intros t ->.
    destruct (JS.endsWith (t +:+ "Declaration") "Definition") eqn:Hdef.
    + exfalso. apply endsWith_iff in Hdef. destruct Hdef as [u Hu].
      pose proof (last_characters u "Definition") as H1.
      pose proof (last_characters (t +:+ "D") "eclaration") as H2.
      rewrite (append_assoc t "D" "eclaration") in H2.
      change ("D" +:+ "eclaration") with "Declaration" in H2.
      rewrite Hu in H2.
      change (String.length "eclaration") with (String.length "Definition") in H2.
      rewrite H1 in H2. discriminate H2.
    + assert (JS.endsWith (t +:+ "Declaration") "Declaration" = true) as ->
        by (apply endsWith_iff; eauto).
      apply (without_suffix t "Declaration").
  - intros Hdef Hdecl.
    destruct (JS.endsWith s "Definition") eqn:H1.
    + apply endsWith_iff in H1. destruct H1 as [t Ht]. destruct (Hdef t Ht).
    + destruct (JS.endsWith s "Declaration") eqn:H2; [|reflexivity].
      apply endsWith_iff in H2. destruct H2 as [t Ht]. destruct (Hdecl t Ht).
Qed.

Lemma spaceBeforeCapitals_spaces_pair (s : string) :
  removeSpaces (JS.spaceBeforeCapitals s) = removeSpaces s
  /\ forall c, removeSpaces (JS.spaceBeforeCapitals (String c s))
               = removeSpaces (String c s).
Proof.
  induction s as [|c2 rest [IHrest IHcons]].
  - split; [reflexivity | intros c; reflexivity].
  - split; [apply IHcons|]. intros c1.
    change (JS.spaceBeforeCapitals (String c1 (String c2 rest)))
      with (if JS.isWordChar c1 && JS.isUpper c2
            then String c1 (String " " (String c2 (JS.spaceBeforeCapitals rest)))
            else String c1 (JS.spaceBeforeCapitals (String c2 rest))).
    destruct (JS.isWordChar c1 && JS.isUpper c2).
    + simpl. rewrite IHrest. reflexivity.
    + specialize (IHcons c2).
      change (removeSpaces (String c1 (JS.spaceBeforeCapitals (String c2 rest))))
        with (if Ascii.eqb c1 " "
              then removeSpaces (JS.spaceBeforeCapitals (String c2 rest))
              else String c1 (removeSpaces (JS.spaceBeforeCapitals (String c2 rest)))).
      rewrite IHcons. reflexivity.
Qed.

Lemma spaceBeforeCapitals_lower_pair (s : string) :
  (Forall (fun c => JS.isUpper c = false) (chars s) ->
   JS.spaceBeforeCapitals s = s)
  /\ forall c, Forall (fun c => JS.isUpper c = false) (chars s) ->
               JS.spaceBeforeCapitals (String c s) = String c s.
Proof.
  induction s as [|c2 rest [IHrest IHcons]].
  - split; [reflexivity | intros c _; reflexivity].
  - split.
    + intros Hall. apply IHcons.
      change (chars (String c2 rest)) with (c2 :: chars rest) in Hall.
      inversion Hall; assumption.
    + intros c1 Hall.
      change (chars (String c2 rest)) with (c2 :: chars rest) in Hall.
      inversion Hall as [|? ? Hc2 Hrest]; subst.
      change (JS.spaceBeforeCapitals (String c1 (String c2 rest)))
        with (if JS.isWordChar c1 && JS.isUpper c2
              then String c1 (String " " (String c2 (JS.spaceBeforeCapitals rest)))
              else String c1 (JS.spaceBeforeCapitals (String c2 rest))).
      rewrite Hc2, andb_false_r. f_equal. apply IHcons, Hrest.
Qed.

(** X3. The second replacement of [type] only adds spaces: without its
    spaces the result is the text without its spaces; and a text with no
    capital letter is left as it is. *)
Theorem spaceBeforeCapitals_only_adds_spaces (s : string) :
  removeSpaces (JS.spaceBeforeCapitals s) = removeSpaces s
  /\ (Forall (fun c => JS.isUpper c = false) (chars s) ->
      JS.spaceBeforeCapitals s = s).
Proof.
  split.
  - apply spaceBeforeCapitals_spaces_pair.
  - apply spaceBeforeCapitals_lower_pair.
Qed.

(** ** The accessors of one property *)

Lemma truthy_iff (v : option string) :
  JS.truthy v = true <-> exists s, v = Some s /\ s <> "".
Proof.
  destruct v as [s|]; simpl.
  - rewrite negb_true_iff, String.eqb_neq. split.
    + intros Hne. eauto.
    + intros [s' [[= <-] Hne]]. exact Hne.
  - split; [discriminate | intros [s [Hs _]]; discriminate].
Qed.

(** X4. [visibility] gives a value exactly on a function or a variable
    declaration that declares a visibility which is not the empty string,
    and the value is the declared one. *)
Theorem visibility_present_iff (item : Node) (v : string) :
  visibility item = Some v <->
    (exists f, item = NFunction f /\ fn_visibility f = Some v /\ v <> "")
    \/ (exists d, item = NVariable d /\ var_visibility d = Some v /\ v <> "").
Proof.
  destruct item as [cname nodes|f|e|e|m|d|k oname]; simpl;
    try (split; [discriminate | intros [(? & H & _)|(? & H & _)]; discriminate]).
  - destruct (fn_visibility f) as [s|] eqn:Hvis; simpl.
    + destruct (String.eqb_spec s "") as [->|Hne]; simpl.
      * split; [discriminate|].
        intros [(f' & [= <-] & Hv & Hne)|(? & H & _)]; [|discriminate].
        rewrite Hvis in Hv. congruence.
      * split.
        -- intros [= <-]. left. exists f. rewrite Hvis. auto.
        -- intros [(f' & [= <-] & Hv & _)|(? & H & _)]; [|discriminate].
           rewrite Hvis in Hv. exact Hv.
    + split; [discriminate|].
      intros [(f' & [= <-] & Hv & _)|(? & H & _)]; [|discriminate].
      rewrite Hvis in Hv. discriminate.
  - destruct (var_visibility d) as [s|] eqn:Hvis; simpl.
    + destruct (String.eqb_spec s "") as [->|Hne]; simpl.
      * split; [discriminate|].
        intros [(? & H & _)|(d' & [= <-] & Hv & Hne)]; [discriminate|].
        rewrite Hvis in Hv. congruence.
      * split.
        -- intros [= <-]. right. exists d. rewrite Hvis. auto.
        -- intros [(? & H & _)|(d' & [= <-] & Hv & _)]; [discriminate|].
           rewrite Hvis in Hv. exact Hv.
    + split; [discriminate|].
      intros [(? & H & _)|(d' & [= <-] & Hv & _)]; [discriminate|].
      rewrite Hvis in Hv. discriminate.
Qed.

(** X5. [typeName] gives a value exactly on a variable declaration with a
    type annotation: the name of an elementary type, and for any other
    type its resolved type string when that is not empty. A variable
    without annotation, or with an unresolved type that is not elementary,
    has none. *)
Theorem typeName_present_iff (item : Node) (t : string) :
  typeName item = Some t <->
    exists d tn,
      item = NVariable d /\ var_typeName d = Some tn
      /\ ((tn_nodeType tn = "ElementaryTypeName" /\ t = tn_name tn)
          \/ (tn_nodeType tn <> "ElementaryTypeName"
              /\ typeString (tn_typeDescriptions tn) = Some t /\ t <> "")).
Proof.
  destruct item as [cname nodes|f|e|e|m|d|k oname]; simpl;
    try (split; [discriminate | intros (? & ? & H & _); discriminate]).
  destruct (var_typeName d) as [tn|] eqn:Htn.
  - destruct (String.eqb_spec (tn_nodeType tn) "ElementaryTypeName") as [Hel|Hel].
    + split.
      * intros [= <-]. exists d, tn. auto.
      * intros (d' & tn' & [= <-] & Htn' & Hcase).
        rewrite Htn in Htn'. injection Htn' as <-.
        destruct Hcase as [[_ ->]|[Hne _]]; [reflexivity | contradiction].
    + destruct (JS.truthy (typeString (tn_typeDescriptions tn))) eqn:Htruthy.
      * apply truthy_iff in Htruthy. destruct Htruthy as [s [Hs Hne]].
        rewrite Hs. split.
        -- intros [= <-]. exists d, tn. auto 6.
        -- intros (d' & tn' & [= <-] & Htn' & Hcase).
           rewrite Htn in Htn'. injection Htn' as <-.
           destruct Hcase as [[Heq _]|(_ & Ht & _)]; [contradiction|].
           congruence.
      * split; [discriminate|].
        intros (d' & tn' & [= <-] & Htn' & Hcase).
        rewrite Htn in Htn'. injection Htn' as <-.
        destruct Hcase as [[Heq _]|(_ & Ht & Hne)]; [contradiction|].
        assert (JS.truthy (typeString (tn_typeDescriptions tn)) = true) as Hyes
          by (apply truthy_iff; eauto).
        congruence.
  - split; [discriminate|].
    intros (d' & tn' & [= <-] & Htn' & _). rewrite Htn in Htn'. discriminate.
Qed.

Lemma suppressed_default (declared : option string) (dflt m : string) :
  (if JS.looseEq declared dflt then None
   else if JS.truthy declared then declared else None) = Some m
  <-> declared = Some m /\ m <> dflt /\ m <> "".
Proof.
  destruct declared as [s|]; simpl.
  - destruct (String.eqb_spec s dflt) as [->|Hd].
    + split; [discriminate | intros ([= <-] & Hne & _); contradiction].
    + destruct (String.eqb_spec s "") as [->|He]; simpl.
      * split; [discriminate | intros ([= <-] & _ & Hne); contradiction].
      * split.
        -- intros [= <-]. auto.
        -- intros (H & _). exact H.
  - split; [discriminate | intros (H & _); discriminate].
Qed.

(** X6. [stateMutability] never gives the default: on a function it gives
    the declared mutability unless that is [nonpayable] or empty, on a
    variable declaration the declared mutability unless that is [mutable]
    or empty, and nothing on any other item. *)
Theorem stateMutability_present_iff (item : Node) (m : string) :
  stateMutability item = Some m <->
    (exists f, item = NFunction f /\ fn_stateMutability f = Some m
               /\ m <> "nonpayable" /\ m <> "")
    \/ (exists d, item = NVariable d /\ var_mutability d = Some m
                  /\ m <> "mutable" /\ m <> "").
Proof.
  destruct item as [cname nodes|f|e|e|m'|d|k oname]; simpl;
    try (split; [discriminate | intros [(? & H & _)|(? & H & _)]; discriminate]).
  - rewrite suppressed_default. split.
    + intros H. left. exists f. tauto.
    + intros [(f' & [= <-] & H)|(? & H & _)]; [exact H | discriminate].
  - rewrite suppressed_default. split.
    + intros H. right. exists d. tauto.
    + intros [(? & H & _)|(d' & [= <-] & H)]; [discriminate | exact H].
Qed.

(** X7. [withModifiers] is absent only on an item that is not a function
    or has no list of modifiers; a function with an empty list gets the
    empty string, not an absent value, one with a single modifier its
    name, and every further modifier follows after a comma and a space. *)
Theorem withModifiers_joined :
  (forall item,
     withModifiers item = None <->
       forall f, item = NFunction f -> fn_modifiers f = None)
  /\ (forall f, fn_modifiers f = Some [] ->
        withModifiers (NFunction f) = Some "")
  /\ (forall f m, fn_modifiers f = Some [m] ->
        withModifiers (NFunction f) = Some (modifierName m))
  /\ (forall f m ms, fn_modifiers f = Some (m :: ms) -> ms <> [] ->
        withModifiers (NFunction f)
        = Some (modifierName m +:+ ", "
                +:+ String.concat ", " (map modifierName ms))).
Proof.
  split; [|split; [|split]].
  - intros item. destruct item as [cname nodes|f|e|e|m|d|k oname]; simpl;
      try (split; [intros _ f H; discriminate H | reflexivity]).
    destruct (fn_modifiers f) as [ms|] eqn:Hms.
    + split; [discriminate|]. intros H. specialize (H f eq_refl).
      rewrite Hms in H. discriminate.
    + split; [|reflexivity]. intros _ f' [= <-]. exact Hms.
  - intros f Hms. simpl. rewrite Hms. reflexivity.
  - intros f m Hms. simpl. rewrite Hms. reflexivity.
  - intros f m ms Hms Hne. simpl. rewrite Hms.
    destruct ms as [|m2 ms]; [contradiction|]. reflexivity.
Qed.

(** ** More on [getParams], [params] and [returns] *)

Lemma getParams_natspec (formals : ParameterList) (natspec : NatSpec) (entry : Param) :
  In entry (getParams formals natspec) ->
  p_natspec entry = findDescription natspec (p_name entry).
Proof.
  unfold getParams. intros Hin. apply in_map_iff in Hin.
  destruct Hin as [p [<- _]]. reflexivity.
Qed.

(** X8. The entries of [params] and of [returns] of one item are
    documented from the same [@param] tags: two entries with the same
    name, parameters or return parameters alike, have the same
    [natspec]. *)
Theorem params_returns_same_natspec (parseNatspec : Node -> NatSpec)
    (item : Node) (ps rs : list Param) (e1 e2 : Param) :
  params parseNatspec item = Some ps ->
  returns parseNatspec item = Some rs ->
  In e1 (ps ++ rs) -> In e2 (ps ++ rs) ->
  p_name e1 = p_name e2 ->
  p_natspec e1 = p_natspec e2.
Proof.
  intros Hps Hrs H1 H2 Hname.
  destruct item as [cname nodes|f|e|e|m|d|k oname]; try discriminate Hrs.
  simpl in Hps, Hrs. injection Hps as <-. injection Hrs as <-.
  assert (Hdoc : forall e, In e (getParams (fn_parameters f) (natspec parseNatspec (NFunction f))
                                 ++ getParams (fn_returnParameters f)
                                      (natspec parseNatspec (NFunction f))) ->
                 p_natspec e
                 = findDescription (natspec parseNatspec (NFunction f)) (p_name e)).
  { intros e He. apply in_app_or in He.
    destruct He as [He|He]; apply getParams_natspec in He; exact He. }
  rewrite (Hdoc e1 H1), (Hdoc e2 H2), Hname. reflexivity.
Qed.

Lemma params_returns_same_natspec_witness :
  p_natspec (mkParam "amount" (Some "uint256") (Some "what to echo"))
  = p_natspec (mkParam "amount" (Some "uint128") (Some "what to echo")).
Proof.
  apply (params_returns_same_natspec
           (fun _ => mkNatSpec None None
                       (Some [mkNatSpecParam "amount" "what to echo"]))
           (NFunction echoFn)
           [mkParam "amount" (Some "uint256") (Some "what to echo")]
           [mkParam "amount" (Some "uint128") (Some "what to echo")]).
  - reflexivity.
  - reflexivity.
  - simpl. auto.
  - simpl. auto.
  - reflexivity.
Defined.

(** X9. When the NatSpec of an item has no [@param] tag (no list of
    tags, or an empty one), no entry of [getParams] has a [natspec]. *)
Theorem getParams_without_tags (formals : ParameterList) (natspec : NatSpec) :
  ns_params natspec = None \/ ns_params natspec = Some [] ->
  Forall (fun entry => p_natspec entry = None) (getParams formals natspec).
Proof.
  intros Hnone. apply List.Forall_forall. intros entry Hin.
  rewrite (getParams_natspec _ _ _ Hin). unfold findDescription.
  destruct Hnone as [->| ->]; reflexivity.
Qed.

Lemma getParams_without_tags_witness :
  Forall (fun entry => p_natspec entry = None)
    (getParams (fn_parameters transferFn) noNatspec).
Proof.
  apply (getParams_without_tags (fn_parameters transferFn) noNatspec).
  left. reflexivity.
Defined.

(** ** More on [signature] *)

(** X10. A parameter whose type is not resolved (no type annotation, or
    no type string) does not stop [signature]: it stands as the empty
    string among the type strings of the other parameters, which keep
    their places, so [pay(uint256,)] when the second of two parameters is
    unresolved. With no parameter resolved the commas alone are left, as
    in [call(,)]. *)
Theorem signature_unresolved :
  (forall f,
     fn_kind f = "function" ->
     signature (NFunction f)
     = Some (fn_name f +:+ "("
             +:+ String.concat ","
                   (map (fun a => default "" (paramTypeString a))
                      (parameters (fn_parameters f)))
             +:+ ")"))
  /\ (forall f,
        In (fn_kind f) ["constructor"; "fallback"; "receive"] ->
        signature (NFunction f)
        = Some (fn_kind f +:+ "("
                +:+ String.concat ","
                      (map (fun a => default "" (paramTypeString a))
                         (parameters (fn_parameters f)))
                +:+ ")"))
  /\ (forall e,
        signature (NEvent e)
        = Some (ev_name e +:+ "("
                +:+ String.concat ","
                      (map (fun a => default "" (paramTypeString a))
                         (parameters (ev_parameters e)))
                +:+ ")"))
  /\ (forall l : list VariableDeclaration,
        Forall (fun a => paramTypeString a = None) l ->
        map (fun a => default "" (paramTypeString a)) l = repeat "" (length l))
  /\ signature (NFunction mixedFn) = Some "pay(uint256,)"
  /\ signature (NFunction untypedFn) = Some "call(,)".
Proof.
  split; [|split; [|split; [|split; [|split]]]].
  - intros f Hkind. unfold signature, signatureText, JS.join, name.
    rewrite List.map_map, Hkind. reflexivity.
  - intros f Hkind. unfold signature, signatureText, JS.join, name.
    rewrite List.map_map.
    destruct (String.eqb_spec (fn_kind f) "function") as [Heq|Hne];
      [|reflexivity].
    rewrite Heq in Hkind. simpl in Hkind.
    destruct Hkind as [H|[H|[H|[]]]]; discriminate H.
  - intros e. unfold signature, signatureText, JS.join.
    rewrite List.map_map. reflexivity.
  - intros l Hall. induction Hall as [|a l Ha _ IH]; [reflexivity|].
    simpl. rewrite Ha, IH. reflexivity.
  - reflexivity.
  - reflexivity.
Qed.

(** ** The filters on visibility *)

(** X11. [publicExternalFunctions] holds exactly the functions of the
    subtree of the item, the item included, whose visibility is [public]
    or [external]. *)
Theorem publicExternalFunctions_members (item x : Node) :
  In x (publicExternalFunctions item) <->
    exists f, x = NFunction f /\ InSubtree x item
              /\ (fn_visibility f = Some "public"
                  \/ fn_visibility f = Some "external").
Proof.
  unfold publicExternalFunctions. rewrite filter_In, findAll_iff. split.
  - intros [[Hsub Hnt] Hvis]. destruct (nodeType_function x Hnt) as [f ->].
    exists f. split; [reflexivity|]. split; [exact Hsub|].
    apply isPublicOrExternal_function, Hvis.
  - intros (f & -> & Hsub & Hvis). split; [split; [exact Hsub | reflexivity]|].
    apply isPublicOrExternal_function, Hvis.
Qed.

(** X12. [publicVariables] is [variables] restricted to the visibility
    [public]: absent when [variables] is, else the public entries of
    [variables] in the same order; each of them is a member of the
    contract, a state variable declared [public]. *)
Theorem publicVariables_of_variables (item : Node) :
  publicVariables item = option_map (List.filter isPublic) (variables item)
  /\ (forall xs x, publicVariables item = Some xs -> In x xs ->
        exists d, x = NVariable d /\ In x (memberNodes item)
                  /\ var_stateVariable d = true
                  /\ var_visibility d = Some "public").
Proof.
  split.
  - destruct item; reflexivity.
  - intros xs x Hxs Hx.
    destruct item as [cname nodes|f|e|e|m|d|k oname]; try discriminate Hxs.
    simpl in Hxs. injection Hxs as <-. rewrite !filter_In in Hx.
    destruct Hx as [[[Hin _] Hstate] Hpub].
    destruct x as [| | | | |d|]; simpl in Hstate; try discriminate.
    exists d. apply looseEq_iff in Hpub. auto.
Qed.

(** ** More on [wrapWithAccessors] *)

Ltac key_case Hkept :=
  first [ solve [simpl; auto 12]
        | exfalso; apply Hkept; simpl; solve [auto 12] ].

(** X13. Wrapping keeps every own property of the item whose key is not
    the name of an accessor: all but [name], [visibility], [typeName],
    [stateMutability], [virtual] and [modifiers]. *)
Theorem own_properties_kept (parseNatspec : Node -> NatSpec)
    (item : Node) (key : string) (v : value) :
  ownProperties item !! key = Some v ->
  ~ In key overriddenKeys ->
  wrapWithAccessors parseNatspec item !! key = Some v.
Proof.
  intros Hown Hkept. rewrite wrapWithAccessors_lookup.
  assert (Hnone : accessors parseNatspec !! key = None);
    [|rewrite Hnone; exact Hown].
  unfold ownProperties in Hown.
  apply elem_of_list_to_map_2, list_elem_of_In in Hown.
  assert (Hcase : In key ["nodeType"; "nodes"; "kind"; "parameters";
                          "returnParameters"; "typeDescriptions";
                          "stateVariable"; "mutability"]).
  { destruct item as [cname nodes|f|e|e|m|d|k oname]; simpl in Hown.
    - repeat (destruct Hown as [[= <- _]|Hown]; [key_case Hkept|]);
        contradiction.
    - destruct f as [fname kind vis mut virt mods ps rs]; simpl in Hown.
      destruct vis, mut, mods; simpl in Hown;
        repeat (destruct Hown as [[= <- _]|Hown]; [key_case Hkept|]);
        contradiction.
    - repeat (destruct Hown as [[= <- _]|Hown]; [key_case Hkept|]);
        contradiction.
    - repeat (destruct Hown as [[= <- _]|Hown]; [key_case Hkept|]);
        contradiction.
    - repeat (destruct Hown as [[= <- _]|Hown]; [key_case Hkept|]);
        contradiction.
    - destruct d as [vname tn td sv vis mut]; simpl in Hown.
      destruct tn, vis, mut; simpl in Hown;
        repeat (destruct Hown as [[= <- _]|Hown]; [key_case Hkept|]);
        contradiction.
    - repeat (destruct Hown as [[= <- _]|Hown]; [key_case Hkept|]);
        contradiction. }
  simpl in Hcase.
  repeat (destruct Hcase as [<-|Hcase]; [reflexivity|]). contradiction.
Qed.

Lemma own_properties_kept_witness :
  wrapWithAccessors (fun _ => noNatspec) (NFunction transferFn) !! "kind"
  = Some (VString "function").
Proof.
  apply (own_properties_kept (fun _ => noNatspec) (NFunction transferFn)).
  - reflexivity.
  - simpl. intros [H|[H|[H|[H|[H|[H|[]]]]]]]; discriminate H.
Defined.

Lemma no_modifier_among_parameters (l : list VariableDeclaration) :
  List.filter (isNodeType "ModifierDefinition") (map NVariable l) = [].
Proof. induction l as [|a l IH]; [reflexivity | exact IH]. Qed.

(** X14. In a wrapped function two own properties give way to accessors
    of the same name: [modifiers] no longer is the list of the modifiers
    the function invokes but the list of modifier definitions found in
    the function, which is empty, and [virtual] no longer is a boolean but
    the text [virtual] or [undefined]. *)
Theorem wrapped_function_overrides (parseNatspec : Node -> NatSpec)
    (f : FunctionDefinition) :
  wrapWithAccessors parseNatspec (NFunction f) !! "modifiers" = Some (VNodes [])
  /\ wrapWithAccessors parseNatspec (NFunction f) !! "virtual"
     = Some (if fn_virtual f then VString "virtual" else VUndefined)
  /\ ownProperties (NFunction f) !! "virtual" = Some (VBool (fn_virtual f))
  /\ (forall ms, fn_modifiers f = Some ms ->
        ownProperties (NFunction f) !! "modifiers"
        = Some (VModifierInvocations ms)).
Proof.
  rewrite !wrapWithAccessors_lookup. split; [|split; [|split]].
  - change (accessors parseNatspec !! "modifiers")
      with (Some (fun item : Node => VNodes (modifiers item))).
    unfold modifiers. rewrite findAll_unfold. simpl.
    rewrite app_nil_r, List.filter_app, !no_modifier_among_parameters.
    reflexivity.
  - change (accessors parseNatspec !! "virtual")
      with (Some (fun item : Node => ofString (virtual item))).
    simpl. destruct (fn_virtual f); reflexivity.
  - destruct f as [fname kind vis mut virt mods ps rs].
    destruct vis, mut, mods; reflexivity.
  - intros ms Hms. destruct f as [fname kind vis mut virt mods ps rs].
    simpl in Hms. subst mods. destruct vis, mut; reflexivity.
Qed.
